(** * ResourceGetter: a shallow embedding of [src/ResourceGetter.py]

    The module resolves dotted resource names against the files found in a
    list of directories.  This development embeds the flattener, the
    severity-tagged incidents, the parser registry and the methods of
    [ResourceManager] as Rocq functions, and states the properties of the
    specification about them.

    Conventions of the embedding:
    - Python [str] is [string]; [lower] acts on the ASCII letters only.
    - Parsed data is [pyval], the data model of [json.load]: a [dict] is an
      association list in insertion order (its keys are strings).
    - The module-level mutable state ([_D_PARSERS], [_D_TYPES], the three
      incidents, what was printed or warned, the objects allocated) is the
      record [globals]; a method is a function into the state-and-exception
      monad [M].  A method that mutates the manager returns the new manager
      next to its result.
    - The operating system (environment, directory listing) is the record
      [OS], read but never written; a parser is a function of the path, the
      content of the file being part of the function.
    - The checks and transforms of transformer rules are total functions
      without effects. *)

From stdpp Require Import gmap strings list fin_maps pretty.
From Stdlib Require Import ZArith Ascii String.

Open Scope string_scope.
Open Scope list_scope.
Open Scope stdpp_scope.

Set Warnings "-register-all".

(** ** Strings as Python uses them *)

Module PyStr.

(** [c.lower()] for one character: the ASCII capitals move by 32. *)
Definition lower_ascii (c : ascii) : ascii :=
  let n := nat_of_ascii c in
  if (65 <=? n)%nat && (n <=? 90)%nat then ascii_of_nat (n + 32) else c.

(** [s.lower()] *)
Fixpoint lower (s : string) : string :=
  match s with
  | EmptyString => EmptyString
  | String c rest => String (lower_ascii c) (lower rest)
  end.

(** [sub in s] where [sub] is a single character, as in ["*" in s]. *)
Fixpoint contains (c : ascii) (s : string) : bool :=
  match s with
  | EmptyString => false
  | String d rest => if Ascii.eqb c d then true else contains c rest
  end.

(** [s.split(sep)] for a one-character separator: never the empty list,
    [''.split('.')] is [['']]. *)
Fixpoint split (sep : ascii) (s : string) : list string :=
  match s with
  | EmptyString => [EmptyString]
  | String c rest =>
      if Ascii.eqb c sep then EmptyString :: split sep rest
      else match split sep rest with
           | [] => [String c EmptyString]
           | w :: ws => String c w :: ws
           end
  end.

(** [s.rpartition(sep)[2]]: what follows the last separator, the whole
    string when there is none. *)
Fixpoint rpartition_tail (sep : ascii) (s : string) : string :=
  match s with
  | EmptyString => EmptyString
  | String c rest =>
      if contains sep rest then rpartition_tail sep rest
      else if Ascii.eqb c sep then rest
      else s
  end.

(** [s.replace(old, new)] for a one-character [old]. *)
Fixpoint replace (old : ascii) (new : string) (s : string) : string :=
  match s with
  | EmptyString => EmptyString
  | String c rest =>
      if Ascii.eqb c old then new +:+ replace old new rest
      else String c (replace old new rest)
  end.

(** [" " * n] *)
Fixpoint spaces (n : nat) : string :=
  match n with
  | O => EmptyString
  | S k => String " "%char (spaces k)
  end.

(** [str(i)] for a list index. *)
Definition of_nat (n : nat) : string := pretty n.

Definition dot : ascii := "."%char.
Definition star : ascii := "*"%char.
Definition newline : ascii := ascii_of_nat 10.
Definition nl : string := String newline EmptyString.

End PyStr.

(** ** Values *)

(** What a parser returns: the JSON data model.  A float is kept by its
    bit pattern, the code never computes with one. *)
Inductive pyval : Type :=
| PNone
| PBool (b : bool)
| PInt (n : Z)
| PFloat (bits : Z)
| PStr (s : string)
| PList (items : list pyval)
| PDict (kvs : list (string * pyval)).

(** [type(value)] *)
Inductive pytype : Type :=
| TNoneType | TBool | TInt | TFloat | TStr | TList | TDict.

Definition type_of (v : pyval) : pytype :=
  match v with
  | PNone => TNoneType
  | PBool _ => TBool
  | PInt _ => TInt
  | PFloat _ => TFloat
  | PStr _ => TStr
  | PList _ => TList
  | PDict _ => TDict
  end.

(** [type(value).__name__] *)
Definition type_name (t : pytype) : string :=
  match t with
  | TNoneType => "NoneType"
  | TBool => "bool"
  | TInt => "int"
  | TFloat => "float"
  | TStr => "str"
  | TList => "list"
  | TDict => "dict"
  end.

#[global] Instance pytype_eq_dec : EqDecision pytype.
Proof. solve_decision. Defined.

#[global] Instance pytype_countable : Countable pytype.
Proof.
  refine (inj_countable'
    (fun t => match t with
              | TNoneType => 0 | TBool => 1 | TInt => 2 | TFloat => 3
              | TStr => 4 | TList => 5 | TDict => 6
              end)
    (fun n => match n with
              | 0 => TNoneType | 1 => TBool | 2 => TInt | 3 => TFloat
              | 4 => TStr | 5 => TList | _ => TDict
              end) _).
  by intros [].
Defined.

(** [key in data.keys()] and [data[key]] on a dict. *)
Fixpoint dict_get (kvs : list (string * pyval)) (key : string) : option pyval :=
  match kvs with
  | [] => None
  | (k, v) :: rest => if String.eqb k key then Some v else dict_get rest key
  end.

(** A value of the cache and of the override table: [(value, label)]. *)
Abbreviation entry := (pyval * string)%type (only parsing).

(** ** The flattener

    [d_flatten(data, s_path, s_prefix='')], the function nested in
    [ResourceManager.__init__].  [flattened.update(d)] is the left-biased
    union [d ∪ flattened]; [flattened[k] = v, s_path] is an insert. *)
Fixpoint d_flatten (data : pyval) (s_path : string) (s_prefix : string)
  : gmap string entry :=
  match data with
  | PDict kvs =>
      (fix items (kvs : list (string * pyval)) (flattened : gmap string entry)
         : gmap string entry :=
         match kvs with
         | [] => flattened
         | (s_key, value) :: rest =>
             let s_new_key :=
               match s_prefix with
               | EmptyString => s_key
               | _ => s_prefix +:+ s_key
               end in
             items rest
               match value with
               | PDict _ =>
                   d_flatten value s_path (s_new_key +:+ ".") ∪ flattened
               | _ => <[s_new_key := (value, s_path)]> flattened
               end
         end) kvs ∅
  | PList l =>
      (fix enumerate (l : list pyval) (i_index : nat)
           (flattened : gmap string entry) : gmap string entry :=
         match l with
         | [] => flattened
         | item :: rest =>
             enumerate rest (S i_index)
               (d_flatten item s_path
                  (s_prefix +:+ PyStr.of_nat i_index +:+ ".") ∪ flattened)
         end) l 0 ∅
  | _ => ∅
  end.

(** ** Exceptions, output and the module state *)

Inductive exn : Type :=
| RGError (msg : string)          (* the module's own exception *)
| TypeError (msg : string)
| AttributeError (msg : string)
| ValueError (msg : string)
| Exception (msg : string)
| ParserError (msg : string).     (* whatever a parser raises *)

Inductive result (A : Type) : Type :=
| Ok (a : A)
| Raise (e : exn).
Arguments Ok {A} a.
Arguments Raise {A} e.

(** What the process emits: a line on stdout, or [warnings.warn(_, RGWarning)]
    (the warning filters of the interpreter are not modelled, every call is
    logged). *)
Inductive event : Type :=
| Printed (line : string)
| Warned (msg : string).

(** A parser maps the path of a file to the parsed structure or raises. *)
Abbreviation parser := (string → result pyval) (only parsing).

(** Severity levels. *)
Definition MESSAGE : Z := 0.
Definition WARNING : Z := 1.
Definition ERROR : Z := 2.

Record Incident : Type := {
  _S_NAME : string;
  _I_SEVERITY : Z
}.

(** [Incident.set_severity] *)
Definition set_severity (self : Incident) (i_severity : Z) : result Incident :=
  if bool_decide (i_severity ∈ [ERROR; WARNING; MESSAGE]) then
    Ok {| _S_NAME := _S_NAME self; _I_SEVERITY := i_severity |}
  else Raise (ValueError ("Invalid severity: " +:+ pretty i_severity)).

(** [Incident.__init__]; the class attribute [_I_SEVERITY = ERROR] is the
    value before [set_severity] runs. *)
Definition Incident_init (s_name : string) (i_severity : Z) : result Incident :=
  set_severity {| _S_NAME := s_name; _I_SEVERITY := ERROR |} i_severity.

(** An instance wrapped by [get]: a new object of class [RG<type>] built
    from the value; [rg_id] is its identity. *)
Record RGObject : Type := {
  rg_id : nat;
  rg_class : string;
  rg_value : pyval
}.

(** The module-level state. *)
Record globals : Type := {
  _D_PARSERS : gmap string parser;
  _D_TYPES : gmap pytype string;
  INCIDENT_WILDCARD : Incident;
  INCIDENT_EXPECTED_FILE : Incident;
  INCIDENT_NO_EXTENSION : Incident;
  emitted : list event;           (* in the order of emission *)
  next_id : nat                   (* objects allocated so far *)
}.

Definition set_parsers (f : gmap string parser → gmap string parser) (g : globals) : globals :=
  {| _D_PARSERS := f (_D_PARSERS g); _D_TYPES := _D_TYPES g;
     INCIDENT_WILDCARD := INCIDENT_WILDCARD g;
     INCIDENT_EXPECTED_FILE := INCIDENT_EXPECTED_FILE g;
     INCIDENT_NO_EXTENSION := INCIDENT_NO_EXTENSION g;
     emitted := emitted g; next_id := next_id g |}.

Definition set_types (f : gmap pytype string → gmap pytype string) (g : globals) : globals :=
  {| _D_PARSERS := _D_PARSERS g; _D_TYPES := f (_D_TYPES g);
     INCIDENT_WILDCARD := INCIDENT_WILDCARD g;
     INCIDENT_EXPECTED_FILE := INCIDENT_EXPECTED_FILE g;
     INCIDENT_NO_EXTENSION := INCIDENT_NO_EXTENSION g;
     emitted := emitted g; next_id := next_id g |}.

Definition emit (e : event) (g : globals) : globals :=
  {| _D_PARSERS := _D_PARSERS g; _D_TYPES := _D_TYPES g;
     INCIDENT_WILDCARD := INCIDENT_WILDCARD g;
     INCIDENT_EXPECTED_FILE := INCIDENT_EXPECTED_FILE g;
     INCIDENT_NO_EXTENSION := INCIDENT_NO_EXTENSION g;
     emitted := emitted g ++ [e]; next_id := next_id g |}.

Definition bump_id (g : globals) : globals :=
  {| _D_PARSERS := _D_PARSERS g; _D_TYPES := _D_TYPES g;
     INCIDENT_WILDCARD := INCIDENT_WILDCARD g;
     INCIDENT_EXPECTED_FILE := INCIDENT_EXPECTED_FILE g;
     INCIDENT_NO_EXTENSION := INCIDENT_NO_EXTENSION g;
     emitted := emitted g; next_id := S (next_id g) |}.

Definition set_no_extension (i : Incident) (g : globals) : globals :=
  {| _D_PARSERS := _D_PARSERS g; _D_TYPES := _D_TYPES g;
     INCIDENT_WILDCARD := INCIDENT_WILDCARD g;
     INCIDENT_EXPECTED_FILE := INCIDENT_EXPECTED_FILE g;
     INCIDENT_NO_EXTENSION := i;
     emitted := emitted g; next_id := next_id g |}.

(** ** The monad of the methods: module state and exceptions

    A raised exception keeps the module state reached so far. *)
Definition M (A : Type) : Type := globals → result A * globals.

Definition ret {A} (a : A) : M A := fun g => (Ok a, g).

Definition bind {A B} (m : M A) (k : A → M B) : M B :=
  fun g => match m g with
           | (Ok a, g') => k a g'
           | (Raise e, g') => (Raise e, g')
           end.

Definition raise {A} (e : exn) : M A := fun g => (Raise e, g).

Definition lift {A} (r : result A) : M A := fun g => (r, g).

Definition read : M globals := fun g => (Ok g, g).

Definition modify (f : globals → globals) : M unit := fun g => (Ok tt, f g).

Declare Scope py_scope.
Delimit Scope py_scope with py.
Notation "'let*' x ':=' m 'in' k" := (bind m (fun x => k))
  (at level 10, x pattern, m at level 100, k at level 200) : py_scope.
Notation "m ';;;' k" := (bind m (fun _ => k))
  (at level 100, k at level 200, right associativity) : py_scope.
Open Scope py_scope.

(** [warnings.warn(msg, RGWarning)] and [print(line)] *)
Definition warn (msg : string) : M unit := modify (emit (Warned msg)).
Definition print (line : string) : M unit := modify (emit (Printed line)).

(** [Incident.__call__], the message already formatted with its arguments. *)
Definition Incident_call (self : Incident) (s_message : string) : M unit :=
  let i_severity := _I_SEVERITY self in
  if (i_severity =? ERROR)%Z then
    raise (RGError (_S_NAME self +:+ ": " +:+
                    PyStr.replace PyStr.newline (PyStr.nl +:+ "    ") s_message))
  else if (i_severity =? WARNING)%Z then
    warn (PyStr.replace PyStr.newline (PyStr.nl +:+ "    ") s_message)
  else if (i_severity =? MESSAGE)%Z then
    print ("# " +:+ _S_NAME self +:+ ": " +:+
           PyStr.replace PyStr.newline
             (PyStr.nl +:+ "#   " +:+ PyStr.spaces (String.length (_S_NAME self)))
             s_message)
  else raise (Exception ("Invalid severity level: " +:+ pretty i_severity)).

(** The state after the module is imported: the incidents of the last lines
    of the file and the default parsers ([parse_yaml] when yaml is there). *)
Definition module_globals (parse_json : parser) (parse_yaml : option parser) : globals :=
  {| _D_PARSERS :=
       match parse_yaml with
       | Some y => <["yaml" := y]> (<["json" := parse_json]> ∅)
       | None => <["json" := parse_json]> ∅
       end;
     _D_TYPES := ∅;
     INCIDENT_WILDCARD := {| _S_NAME := "Wildcard"; _I_SEVERITY := MESSAGE |};
     INCIDENT_EXPECTED_FILE := {| _S_NAME := "ExpectedFile"; _I_SEVERITY := ERROR |};
     INCIDENT_NO_EXTENSION := {| _S_NAME := "UnknownExtension"; _I_SEVERITY := ERROR |};
     emitted := [];
     next_id := 0 |}.

(** ** The operating system, as far as the module reads it *)

Record OS : Type := {
  os_name : string;                        (* [os.name] *)
  environ : gmap string string;            (* [os.environ] *)
  is_file : string → bool;                 (* [pathlib.Path(p).is_file()] *)
  glob_files : string → string → list string
    (* [glob_files p pat]: the [str] of every regular file that
       [pathlib.Path(p).resolve().glob(pat)] yields, in the order of the
       directory listing *)
}.

(** The [source] argument of the constructor: the name of an environment
    variable, or the list of directories itself. *)
Inductive source : Type :=
| SourceEnv (s_name : string)
| SourcePaths (sa_paths : list string).

(** A transformer rule [(x_check, x_transform)]. *)
Abbreviation transformer := ((pyval → bool) * (pyval → pyval))%type (only parsing).

Record ResourceManager : Type := {
  _S_PREFIX : string;
  _SOURCE : source;
  _D_DATA : gmap string entry;
  _D_OVERRIDES : gmap string entry;
  _XAA_TRANSFORMERS : list transformer     (* in the order of registration *)
}.

Definition set_data (f : gmap string entry → gmap string entry)
    (self : ResourceManager) : ResourceManager :=
  {| _S_PREFIX := _S_PREFIX self; _SOURCE := _SOURCE self;
     _D_DATA := f (_D_DATA self); _D_OVERRIDES := _D_OVERRIDES self;
     _XAA_TRANSFORMERS := _XAA_TRANSFORMERS self |}.

Definition set_overrides (f : gmap string entry → gmap string entry)
    (self : ResourceManager) : ResourceManager :=
  {| _S_PREFIX := _S_PREFIX self; _SOURCE := _SOURCE self;
     _D_DATA := _D_DATA self; _D_OVERRIDES := f (_D_OVERRIDES self);
     _XAA_TRANSFORMERS := _XAA_TRANSFORMERS self |}.

Section Methods.

Variable os : OS.

(** [for path in paths: if path.is_file(): warnings.warn(...)] *)
Fixpoint warn_files (paths : list string) : M unit :=
  match paths with
  | [] => ret tt
  | path :: rest =>
      (if is_file os path
       then warn ("Expected directory but found file: " +:+ path)
       else ret tt) ;;;
      warn_files rest
  end.

(** [ResourceManager._get_source_paths] *)
Definition _get_source_paths (self : ResourceManager) : M (list string) :=
  let s_sep := if String.eqb (os_name os) "nt" then ";"%char else ":"%char in
  let sa_source_paths :=
    match _SOURCE self with
    | SourceEnv s_name => PyStr.split s_sep (default "" (environ os !! s_name))
    | SourcePaths sa_paths => sa_paths
    end in
  warn_files sa_source_paths ;;;
  ret sa_source_paths.

(** [ResourceManager._get_source_files] *)
Definition _get_source_files (self : ResourceManager) (path : string) : list string :=
  glob_files os path (_S_PREFIX self +:+ ".*").

(** [ResourceManager._get_all_source_files]: pairs (file, extension). *)
Definition _get_all_source_files (self : ResourceManager) : M (list (string * string)) :=
  let* paths := _get_source_paths self in
  ret (p ← paths; f ← _get_source_files self p;
       [(f, PyStr.rpartition_tail PyStr.dot f)]).

(** The eager load of [__init__]: the loop over the reversed file list,
    [d_data] being [self._D_DATA]. *)
Fixpoint load_files (files : list (string * string)) (d_data : gmap string entry)
  : M (gmap string entry) :=
  match files with
  | [] => ret d_data
  | (path, _) :: rest =>
      let s_extension := PyStr.rpartition_tail PyStr.dot path in
      let* g := read in
      match _D_PARSERS g !! PyStr.lower s_extension with
      | None =>
          Incident_call (INCIDENT_NO_EXTENSION g)
            ("No parser found for: '" +:+ s_extension +:+ "' (" +:+ path +:+ ")") ;;;
          load_files rest d_data
      | Some x_parser =>
          let* data := lift (x_parser path) in
          load_files rest (d_flatten data path "" ∪ d_data)
      end
  end.

(** [ResourceManager.__init__] *)
Definition __init__ (s_category : string) (src : source) (b_load : bool)
  : M ResourceManager :=
  (if PyStr.contains PyStr.star s_category then
     let* g := read in
     Incident_call (INCIDENT_WILDCARD g)
       ("Using '*' in category can cause problems" +:+ PyStr.nl +:+
        "when there are conflicts between files!")
   else ret tt) ;;;
  let self := {| _S_PREFIX := s_category; _SOURCE := src; _D_DATA := ∅;
                 _D_OVERRIDES := ∅; _XAA_TRANSFORMERS := [] |} in
  if negb b_load then ret self
  else
    let* files := _get_all_source_files self in
    let* d_data := load_files (rev files) (_D_DATA self) in
    ret (set_data (fun _ => d_data) self).

(** The [while] loop of [_get_resource]: pop the first segment while it
    is a key of [data]; [data.keys()] raises on what is not a dict.
    Returns the value reached and the segments left. *)
Fixpoint descend (data : pyval) (sa_parts : list string)
  : result (pyval * list string) :=
  match sa_parts with
  | [] => Ok (data, [])
  | s_token :: rest =>
      match data with
      | PDict kvs =>
          match dict_get kvs s_token with
          | Some v => descend v rest
          | None => Ok (data, sa_parts)
          end
      | _ => Raise (AttributeError
               ("'" +:+ type_name (type_of data) +:+ "' object has no attribute 'keys'"))
      end
  end.

(** The [for] loop of [_get_resource] over the discovered files;
    [sa_parts] is the one list the loop body pops from. *)
Fixpoint probe_files (self : ResourceManager) (s_resource : string)
    (files : list (string * string)) (sa_parts : list string)
  : M (entry * ResourceManager) :=
  match files with
  | [] => raise (RGError ("Could not find " +:+ s_resource))
  | (path, s_extension) :: rest =>
      let* g := read in
      match _D_PARSERS g !! PyStr.lower s_extension with
      | None =>
          warn ("No parser found for: '" +:+ s_extension +:+ "' (" +:+ path +:+ ")") ;;;
          probe_files self s_resource rest sa_parts
      | Some x_parser =>
          let* data := lift (x_parser path) in
          let* (data, sa_parts) := lift (descend data sa_parts) in
          match sa_parts with
          | _ :: _ => probe_files self s_resource rest sa_parts
          | [] =>
              ret ((data, path), set_data (insert s_resource (data, path)) self)
          end
      end
  end.

(** [ResourceManager._get_resource]; the manager is returned with the
    result since a fresh resolution writes the cache. *)
Definition _get_resource (self : ResourceManager) (s_resource : string)
    (b_reload : bool) : M (entry * ResourceManager) :=
  match _D_OVERRIDES self !! s_resource with
  | Some e => ret (e, self)
  | None =>
      match _D_DATA self !! s_resource, b_reload with
      | Some e, false => ret (e, self)
      | _, _ =>
          if PyStr.contains PyStr.star s_resource then
            raise (RGError "No wildcard search allowed yet!")
          else
            let sa_parts := PyStr.split PyStr.dot s_resource in
            let* files := _get_all_source_files self in
            probe_files self s_resource files sa_parts
      end
  end.

(** The transformer loop of [get], over [_XAA_TRANSFORMERS[::-1]]:
    the first accepting check transforms the value and breaks. *)
Fixpoint transform_loop (xaa : list transformer) (value : pyval) : pyval :=
  match xaa with
  | [] => value
  | (x_check, x_transform) :: rest =>
      if x_check value then x_transform value
      else transform_loop rest value
  end.

(** The last lines of [get]: the class [RG<type>] is created on first
    use ([bool] and [NoneType] are no acceptable base types) and a new
    instance is built from the value. *)
Definition wrap (value : pyval) : M RGObject :=
  let typ := type_of value in
  let* g := read in
  let* cls :=
    match _D_TYPES g !! typ with
    | Some cls => ret cls
    | None =>
        match typ with
        | TBool | TNoneType =>
            raise (TypeError
              ("type '" +:+ type_name typ +:+ "' is not an acceptable base type"))
        | _ =>
            let cls := "RG" +:+ type_name typ in
            modify (set_types (insert typ cls)) ;;;
            ret cls
        end
    end in
  let* g := read in
  modify bump_id ;;;
  ret {| rg_id := next_id g; rg_class := cls; rg_value := value |}.

(** [ResourceManager.get] *)
Definition get (self : ResourceManager) (s_resource : string) (b_reload : bool)
  : M (RGObject * ResourceManager) :=
  let* (e, self) := _get_resource self s_resource b_reload in
  let value := transform_loop (rev (_XAA_TRANSFORMERS self)) (fst e) in
  let* obj := wrap value in
  ret (obj, self).

(** [ResourceManager.__call__] *)
Definition __call__ (self : ResourceManager) (s_resource : string) (b_reload : bool)
  : M (RGObject * ResourceManager) :=
  get self s_resource b_reload.

(** [ResourceManager.info] *)
Definition info (self : ResourceManager) (s_resource : string)
  : M (string * ResourceManager) :=
  let* (e, self) := _get_resource self s_resource false in
  ret (snd e, self).

End Methods.

(** [ResourceManager.override] *)
Definition override (self : ResourceManager) (s_resource : string) (value : pyval)
  : ResourceManager :=
  set_overrides (insert s_resource (value, "override")) self.

(** [ResourceManager.remove_override] *)
Definition remove_override (self : ResourceManager) (s_resource : string)
  : ResourceManager :=
  match _D_OVERRIDES self !! s_resource with
  | Some _ => set_overrides (delete s_resource) self
  | None => self
  end.

(** [ResourceManager.register_parser], a static method on the module state. *)
Definition register_parser (s_format : string) (x_parser : parser) : M unit :=
  modify (set_parsers (insert s_format x_parser)).

(** [ResourceManager.register_transformer] *)
Definition register_transformer (self : ResourceManager)
    (x_check : pyval → bool) (x_transform : pyval → pyval) : ResourceManager :=
  {| _S_PREFIX := _S_PREFIX self; _SOURCE := _SOURCE self;
     _D_DATA := _D_DATA self; _D_OVERRIDES := _D_OVERRIDES self;
     _XAA_TRANSFORMERS := _XAA_TRANSFORMERS self ++ [(x_check, x_transform)] |}.

(** ** The two loops of the flattener as functions of their own *)

(** The loop over [data.items()] of the dict branch, on its own. *)
Definition flatten_items (s_path s_prefix : string) :=
  fix items (kvs : list (string * pyval)) (flattened : gmap string entry)
    : gmap string entry :=
    match kvs with
    | [] => flattened
    | (s_key, value) :: rest =>
        let s_new_key :=
          match s_prefix with
          | EmptyString => s_key
          | _ => s_prefix +:+ s_key
          end in
        items rest
          match value with
          | PDict _ => d_flatten value s_path (s_new_key +:+ ".") ∪ flattened
          | _ => <[s_new_key := (value, s_path)]> flattened
          end
    end.

(** The loop over [enumerate(data)] of the list branch, on its own. *)
Definition flatten_enumerate (s_path s_prefix : string) :=
  fix enumerate (l : list pyval) (i_index : nat) (flattened : gmap string entry)
    : gmap string entry :=
    match l with
    | [] => flattened
    | item :: rest =>
        enumerate rest (S i_index)
          (d_flatten item s_path (s_prefix +:+ PyStr.of_nat i_index +:+ ".")
             ∪ flattened)
    end.

(** The key under which the dict branch files [s_key]. *)
Definition new_key (s_prefix s_key : string) : string :=
  match s_prefix with
  | EmptyString => s_key
  | _ => s_prefix +:+ s_key
  end.

Definition is_dict (v : pyval) : bool :=
  match v with PDict _ => true | _ => false end.

(** ** Auxiliary notions used in the statements *)

(** [g] after the events [evs] were emitted, nothing else changed. *)
Definition emit_all (evs : list event) (g : globals) : globals :=
  {| _D_PARSERS := _D_PARSERS g; _D_TYPES := _D_TYPES g;
     INCIDENT_WILDCARD := INCIDENT_WILDCARD g;
     INCIDENT_EXPECTED_FILE := INCIDENT_EXPECTED_FILE g;
     INCIDENT_NO_EXTENSION := INCIDENT_NO_EXTENSION g;
     emitted := emitted g ++ evs; next_id := next_id g |}.

(** The directories [_get_source_paths] returns. *)
Definition source_dirs (os : OS) (self : ResourceManager) : list string :=
  match _SOURCE self with
  | SourceEnv s_name =>
      PyStr.split (if String.eqb (os_name os) "nt" then ";"%char else ":"%char)
        (default "" (environ os !! s_name))
  | SourcePaths sa_paths => sa_paths
  end.

(** The files [_get_all_source_files] returns, in discovery order. *)
Definition discovered (os : OS) (self : ResourceManager) : list (string * string) :=
  p ← source_dirs os self; f ← _get_source_files os self p;
  [(f, PyStr.rpartition_tail PyStr.dot f)].

(** The manager [__init__] starts from. *)
Definition blank (s_category : string) (src : source) : ResourceManager :=
  {| _S_PREFIX := s_category; _SOURCE := src; _D_DATA := ∅;
     _D_OVERRIDES := ∅; _XAA_TRANSFORMERS := [] |}.

(** The text [__init__] hands to [INCIDENT_WILDCARD]. *)
Definition wildcard_text : string :=
  "Using '*' in category can cause problems" +:+ PyStr.nl +:+
  "when there are conflicts between files!".

(** The text handed to [INCIDENT_NO_EXTENSION] by the eager load, which is
    also the warning of [_get_resource]. *)
Definition no_parser_text (s_extension path : string) : string :=
  "No parser found for: '" +:+ s_extension +:+ "' (" +:+ path +:+ ")".


(** The message of the error [INCIDENT_NO_EXTENSION] raises for a file. *)
Definition no_parser_error (g : globals) (path : string) : exn :=
  RGError (_S_NAME (INCIDENT_NO_EXTENSION g) +:+ ": " +:+
           PyStr.replace PyStr.newline (PyStr.nl +:+ "    ")
             (no_parser_text (PyStr.rpartition_tail PyStr.dot path) path)).

(** What the same incident emits once its severity is lowered. *)
Definition no_parser_warning (path : string) : event :=
  Warned (PyStr.replace PyStr.newline (PyStr.nl +:+ "    ")
            (no_parser_text (PyStr.rpartition_tail PyStr.dot path) path)).

Definition no_parser_message (g : globals) (path : string) : event :=
  Printed ("# " +:+ _S_NAME (INCIDENT_NO_EXTENSION g) +:+ ": " +:+
           PyStr.replace PyStr.newline
             (PyStr.nl +:+ "#   " +:+
              PyStr.spaces (String.length (_S_NAME (INCIDENT_NO_EXTENSION g))))
             (no_parser_text (PyStr.rpartition_tail PyStr.dot path) path)).



(** The registry has no parser for the extension of [path]. *)
Definition no_parser (g : globals) (path : string) : Prop :=
  _D_PARSERS g !! PyStr.lower (PyStr.rpartition_tail PyStr.dot path) = None.

(** The loop of [_get_resource] as the specification words it: a file that
    does not match is left, and the next file is probed with the full
    original segment list.  Only the segment list handed on differs from
    [probe_files]. *)
Fixpoint spec_probe_files (self : ResourceManager) (s_resource : string)
    (files : list (string * string)) (sa_original : list string)
  : M (entry * ResourceManager) :=
  match files with
  | [] => raise (RGError ("Could not find " +:+ s_resource))
  | (path, s_extension) :: rest =>
      let* g := read in
      match _D_PARSERS g !! PyStr.lower s_extension with
      | None =>
          warn ("No parser found for: '" +:+ s_extension +:+ "' (" +:+ path +:+ ")") ;;;
          spec_probe_files self s_resource rest sa_original
      | Some x_parser =>
          let* data := lift (x_parser path) in
          let* (data, sa_parts) := lift (descend data sa_original) in
          match sa_parts with
          | _ :: _ => spec_probe_files self s_resource rest sa_original
          | [] =>
              ret ((data, path), set_data (insert s_resource (data, path)) self)
          end
      end
  end.

(** A file resolves a key in full when its parser yields a structure in
    which every segment of the key, from the first, is found in turn. *)
Definition resolves (g : globals) (file : string * string) (s_resource : string) : Prop :=
  ∃ x_parser data value,
    _D_PARSERS g !! PyStr.lower (snd file) = Some x_parser ∧
    x_parser (fst file) = Ok data ∧
    descend data (PyStr.split PyStr.dot s_resource) = Ok (value, []).



(** The tail of [get] after the resolution: transformer selection, then
    the wrapper. *)
Definition finish (self : ResourceManager) (value : pyval) : M (RGObject * ResourceManager) :=
  let* obj := wrap (transform_loop (rev (_XAA_TRANSFORMERS self)) value) in
  ret (obj, self).

(** ** Fixtures: small file systems used by the examples below *)

Module Fixtures.

(** Two directories, one [CFG.json] in each. *)
Definition two_dirs : OS :=
  {| os_name := "posix";
     environ := ∅;
     is_file := fun _ => false;
     glob_files := fun p pat =>
       if String.eqb pat "CFG.*" then
         if String.eqb p "/d1" then ["/d1/CFG.json"]
         else if String.eqb p "/d2" then ["/d2/CFG.json"]
         else []
       else [] |}.

(** [/d1/CFG.json] holds [{"a": {"x": 1}}], [/d2/CFG.json] holds [{"b": 2}]. *)
Definition parse_two : parser := fun path =>
  if String.eqb path "/d1/CFG.json" then Ok (PDict [("a", PDict [("x", PInt 1)])])
  else if String.eqb path "/d2/CFG.json" then Ok (PDict [("b", PInt 2)])
  else Raise (ParserError "No such file").

(** One directory with [CFG.json] holding [{"a": 5}]. *)
Definition one_dir : OS :=
  {| os_name := "posix";
     environ := ∅;
     is_file := fun _ => false;
     glob_files := fun p pat =>
       if String.eqb pat "CFG.*" && String.eqb p "/d" then ["/d/CFG.json"] else [] |}.

Definition parse_leaf : parser := fun path =>
  if String.eqb path "/d/CFG.json" then Ok (PDict [("a", PInt 5)])
  else Raise (ParserError "No such file").

(** One directory with [CFG.json] holding [{"k": 1}] next to a [CFG.TXT]. *)
Definition mixed_dir : OS :=
  {| os_name := "posix";
     environ := ∅;
     is_file := fun _ => false;
     glob_files := fun p pat =>
       if String.eqb pat "CFG.*" && String.eqb p "/d"
       then ["/d/CFG.json"; "/d/CFG.TXT"] else [] |}.

Definition parse_k : parser := fun path =>
  if String.eqb path "/d/CFG.json" then Ok (PDict [("k", PInt 1)])
  else Raise (ParserError "No such file").

(** A parser for the [.TXT] file, which holds the one key ["t"]. *)
Definition parse_txt : parser := fun path =>
  if String.eqb path "/d/CFG.TXT" then Ok (PDict [("t", PStr "text")])
  else Raise (ParserError "No such file").

(** A manager built with [b_load=False] over [/d1] and [/d2]. *)
Definition lazy_manager : ResourceManager :=
  {| _S_PREFIX := "CFG"; _SOURCE := SourcePaths ["/d1"; "/d2"];
     _D_DATA := ∅; _D_OVERRIDES := ∅; _XAA_TRANSFORMERS := [] |}.

(** A manager built with [b_load=False] over [/d]. *)
Definition d_manager : ResourceManager :=
  {| _S_PREFIX := "CFG"; _SOURCE := SourcePaths ["/d"];
     _D_DATA := ∅; _D_OVERRIDES := ∅; _XAA_TRANSFORMERS := [] |}.

(** Transformer rules on integers. *)
Definition is_int (v : pyval) : bool :=
  match v with PInt _ => true | _ => false end.
Definition double (v : pyval) : pyval :=
  match v with PInt n => PInt (2 * n) | _ => v end.
Definition negate (v : pyval) : pyval :=
  match v with PInt n => PInt (- n) | _ => v end.

End Fixtures.

(** ** The rest of the module: wrapped values, the except hook *)

Module PyText.

(** [s.startswith(p)] *)
Fixpoint startswith (p s : string) : bool :=
  match p, s with
  | EmptyString, _ => true
  | String _ _, EmptyString => false
  | String a p', String b s' => Ascii.eqb a b && startswith p' s'
  end.

(** [old in s] for strings. *)
Fixpoint occurs (old s : string) : bool :=
  match s with
  | EmptyString => startswith old s
  | String _ rest => startswith old s || occurs old rest
  end.

(** The scan of [s.replace(old, new)] for a non-empty [old]: left to right,
    occurrences do not overlap; [skip] counts the characters of a matched
    occurrence still to pass over. *)
Fixpoint replace_scan (old new s : string) (skip : nat) : string :=
  match s with
  | EmptyString => EmptyString
  | String c rest =>
      match skip with
      | S k => replace_scan old new rest k
      | O =>
          if startswith old s
          then new +:+ replace_scan old new rest (String.length old - 1)
          else String c (replace_scan old new rest 0)
      end
  end.

(** [s.replace("", new)]: [new] before every character and at the end. *)
Fixpoint interleave (new s : string) : string :=
  match s with
  | EmptyString => new
  | String c rest => new +:+ String c (interleave new rest)
  end.

(** [s.replace(old, new)] *)
Definition replace (old new s : string) : string :=
  match old with
  | EmptyString => interleave new s
  | String _ _ => replace_scan old new s 0
  end.

End PyText.

(** [os.path.expandvars], [os.path.expanduser] and the [str] of
    [pathlib.Path(s)], functions of the process environment and of the
    platform. *)
Record OSPath : Type := {
  expandvars : string → string;
  expanduser : string → string;
  path_str : string → string
}.

(** What an instance of an [RG] class wraps: a value of the JSON data model,
    as [get] builds it, or a [pathlib.Path], kept by its [str], as a
    transformer of the caller (the one of the module's demonstration) can
    hand to the wrapper. *)
Inductive wrapped_value : Type :=
| WPath (s_path : string)
| WValue (value : pyval).

Record RGInstance : Type := {
  inst_id : nat;
  inst_class : string;
  inst_value : wrapped_value
}.

(** The object [get] returns, as a receiver of [expand]. *)
Definition instance_of (obj : RGObject) : RGInstance :=
  {| inst_id := rg_id obj; inst_class := rg_class obj;
     inst_value := WValue (rg_value obj) |}.

(** The loop over [kwargs.items()] of [expand]: one [replace] per keyword,
    in the order of the call, each on the result of the one before. *)
Fixpoint expand_kwargs (kwargs : list (string * string)) (s_value : string) : string :=
  match kwargs with
  | [] => s_value
  | (key, value) :: rest =>
      expand_kwargs rest (PyText.replace ("{" +:+ key +:+ "}") value s_value)
  end.

(** The lines of [expand] after the type tests: the two expansions, the
    keywords, and [self.__class__(s_value)], a new object of the class of
    [self] built from the string by [rebuild]. *)
Definition expand_string (osp : OSPath) (self : RGInstance) (b_env_vars b_user : bool)
    (kwargs : list (string * string)) (s_value : string)
    (rebuild : string → wrapped_value) : M RGInstance :=
  let s_value := if b_env_vars then expandvars osp s_value else s_value in
  let s_value := if b_user then expanduser osp s_value else s_value in
  let s_value := expand_kwargs kwargs s_value in
  let* g := read in
  modify bump_id ;;;
  ret {| inst_id := next_id g; inst_class := inst_class self;
         inst_value := rebuild s_value |}.

(** [_RGObject.expand]; the keyword values are strings.  A path is taken by
    its [str] and the result is a path again; a string stays a string;
    anything else is returned as it is. *)
Definition expand (osp : OSPath) (self : RGInstance) (b_env_vars b_user : bool)
    (kwargs : list (string * string)) : M RGInstance :=
  match inst_value self with
  | WPath s_value =>
      expand_string osp self b_env_vars b_user kwargs s_value
        (fun s => WPath (path_str osp s))
  | WValue (PStr s_value) =>
      expand_string osp self b_env_vars b_user kwargs s_value
        (fun s => WValue (PStr s))
  | WValue _ => ret self
  end.

(** A frame of [traceback.extract_tb]. *)
Record frame : Type := {
  filename : string;
  lineno : nat;
  name : string;
  line : string
}.

(** The exception type handed to the hook: [RGError] or another one. *)
Inductive exc_type : Type :=
| ExcRGError
| ExcOther (s_name : string).

Definition is_RGError (type_ : exc_type) : bool :=
  match type_ with ExcRGError => true | ExcOther _ => false end.

(** What a call of the hook does: hand over to [sys.__excepthook__], write
    one frame and the exception line to stderr, or raise itself. *)
Inductive hook_outcome : Type :=
| HookDefault
| HookLimited (frame_mod : frame)
| HookValueError          (* [list.index]: the value is not in the list *)
| HookStopIteration.      (* [next] on an exhausted generator *)

(** [l.index(x)] *)
Fixpoint list_index (x : string) (l : list string) : option nat :=
  match l with
  | [] => None
  | y :: rest => if String.eqb y x then Some 0 else S <$> list_index x rest
  end.

(** [x in l] on a list of strings. *)
Definition list_in (x : string) (l : list string) : bool :=
  existsb (String.eqb x) l.

(** [RG_excepthook(type_, s_description, tb, s_path)] with the frames of
    [tb] already extracted and the module flag [SHOW_FULL_STACKTRACE] as an
    argument; [and] binds tighter than [or]. *)
Definition RG_excepthook (SHOW_FULL_STACKTRACE : bool) (type_ : exc_type)
    (tb_list : list frame) (s_path : string) : hook_outcome :=
  let sa_frame_files := map filename tb_list in
  if (is_RGError type_ && negb (list_in s_path sa_frame_files)) || SHOW_FULL_STACKTRACE
  then HookDefault
  else
    match list_index s_path sa_frame_files with
    | None => HookValueError
    | Some i =>
        let i_index := Z.to_nat (Z.max (Z.of_nat i - 1) 0) in
        match tb_list !! i_index with
        | Some frame_mod => HookLimited frame_mod
        | None => HookStopIteration
        end
    end.

(** ** More notions for the statements *)







(** An incident as the module can hold it: built by [Incident(...)] and
    changed by [set_severity] only. *)
Inductive built : Incident → Prop :=
| built_init s_name i_severity inc :
    Incident_init s_name i_severity = Ok inc → built inc
| built_set inc i_severity inc' :
    built inc → set_severity inc i_severity = Ok inc' → built inc'.


(** What a call leaves alone when it is said not to touch the
    configuration of the module. *)
Definition same_config (g g' : globals) : Prop :=
  _D_PARSERS g' = _D_PARSERS g ∧
  INCIDENT_WILDCARD g' = INCIDENT_WILDCARD g ∧
  INCIDENT_EXPECTED_FILE g' = INCIDENT_EXPECTED_FILE g ∧
  INCIDENT_NO_EXTENSION g' = INCIDENT_NO_EXTENSION g.

(** The warnings of [_get_source_paths]: one for each candidate that is a
    file, in the order of the candidates. *)
Definition file_warnings (os : OS) (paths : list string) : list event :=
  (fun path => Warned ("Expected directory but found file: " +:+ path))
    <$> filter (fun path => is_file os path = true) paths.

(** A file the single-key lookup passes by without consuming a segment:
    it has no parser, or it parses to a dict without the first segment. *)
Definition passed_by (g : globals) (s_first : string) (f : string * string) : Prop :=
  _D_PARSERS g !! PyStr.lower (snd f) = None ∨
  ∃ x_parser kvs,
    _D_PARSERS g !! PyStr.lower (snd f) = Some x_parser ∧
    x_parser (fst f) = Ok (PDict kvs) ∧ dict_get kvs s_first = None.

(** The warnings of the single-key lookup for the files without parser. *)
Fixpoint lookup_warnings (g : globals) (files : list (string * string)) : list event :=
  match files with
  | [] => []
  | (path, s_extension) :: rest =>
      match _D_PARSERS g !! PyStr.lower s_extension with
      | None => Warned (no_parser_text s_extension path) :: lookup_warnings g rest
      | Some _ => lookup_warnings g rest
      end
  end.

(** Every file of the list has a parser, and the parser returns. *)
Definition all_parse (g : globals) (files : list (string * string)) : Prop :=
  Forall (fun f =>
            ∃ x_parser data,
              _D_PARSERS g !! PyStr.lower (PyStr.rpartition_tail PyStr.dot (fst f))
                = Some x_parser ∧
              x_parser (fst f) = Ok data) files.


(** No value of the dict is itself a dict. *)
Definition flat_dict (kvs : list (string * pyval)) : Prop :=
  Forall (fun kv => is_dict (snd kv) = false) kvs.

(** [sep.join(parts)] *)
Fixpoint str_join (sep : string) (parts : list string) : string :=
  match parts with
  | [] => EmptyString
  | [p] => p
  | p :: rest => p +:+ sep +:+ str_join sep rest
  end.

(** A key without the separator of resource names. *)
Definition dot_free (s : string) : Prop := PyStr.contains PyStr.dot s = false.

(** Parsed data as [json.load] gives it for resource files written with
    plain keys: in every dict reached through dicts, the keys are distinct
    and none contains a dot. *)
Fixpoint plain_keys (v : pyval) : Prop :=
  match v with
  | PDict kvs =>
      NoDup kvs.*1 ∧
      (fix all (kvs : list (string * pyval)) : Prop :=
         match kvs with
         | [] => True
         | (k, value) :: rest => dot_free k ∧ plain_keys value ∧ all rest
         end) kvs
  | _ => True
  end.

(** ** More fixtures *)

Module MoreFixtures.

(** A home directory and one variable. *)
Definition home_env : OSPath :=
  {| expandvars := fun s => PyText.replace "$ROOT" "/srv" s;
     expanduser := fun s =>
       match s with
       | String "~"%char rest => "/home/u" +:+ rest
       | _ => s
       end;
     path_str := fun s => PyText.replace "//" "/" s |}.

Definition user_frame : frame :=
  {| filename := "app.py"; lineno := 12; name := "main"; line := "CFG('a')" |}.

Definition call_frame : frame :=
  {| filename := "ResourceGetter.py"; lineno := 299; name := "__call__";
     line := "return self.get(s_resource, b_reload=b_reload)" |}.

Definition raise_frame : frame :=
  {| filename := "ResourceGetter.py"; lineno := 377; name := "_get_resource";
     line := "raise RGError(...)" |}.

(** One directory, a [CFG.json] and a [CFG.yaml] that both define ["k"]. *)
Definition twin_dir : OS :=
  {| os_name := "posix";
     environ := {[ "CFG_PATH" := "/d:/e" ]};
     is_file := fun p => String.eqb p "/e";
     glob_files := fun p pat =>
       if String.eqb pat "CFG.*" && String.eqb p "/d"
       then ["/d/CFG.json"; "/d/CFG.yaml"] else [] |}.

Definition parse_twin_json : string → result pyval := fun path =>
  if String.eqb path "/d/CFG.json"
  then Ok (PDict [("k", PInt 1); ("j", PDict [("x", PBool true)])])
  else Raise (ParserError "No such file").

Definition parse_twin_yaml : string → result pyval := fun path =>
  if String.eqb path "/d/CFG.yaml"
  then Ok (PDict [("k", PInt 2); ("y", PStr "~/$ROOT/{name}")])
  else Raise (ParserError "No such file").

Definition twin_globals : globals :=
  module_globals parse_twin_json (Some parse_twin_yaml).

Definition twin_manager : ResourceManager :=
  {| _S_PREFIX := "CFG"; _SOURCE := SourceEnv "CFG_PATH";
     _D_DATA := ∅; _D_OVERRIDES := ∅; _XAA_TRANSFORMERS := [] |}.

End MoreFixtures.

(** ** String helpers: sanity checks *)

Example split_ab : PyStr.split PyStr.dot "a.b" = ["a"; "b"].
Proof. reflexivity. Qed.

Example split_empty : PyStr.split PyStr.dot "" = [""].
Proof. reflexivity. Qed.

Example split_trailing : PyStr.split PyStr.dot "a..b." = ["a"; ""; "b"; ""].
Proof. reflexivity. Qed.

Example rpartition_two : PyStr.rpartition_tail PyStr.dot "/d/cfg.tar.GZ" = "GZ".
Proof. reflexivity. Qed.

Example rpartition_none : PyStr.rpartition_tail PyStr.dot "cfg" = "cfg".
Proof. reflexivity. Qed.

Example lower_mixed : PyStr.lower "JsOn5_z" = "json5_z".
Proof. reflexivity. Qed.

Lemma split_nonempty sep s : PyStr.split sep s ≠ [].
Proof.
  destruct s as [|c s]; simpl; [done|].
  destruct (Ascii.eqb c sep); [done|].
  by destruct (PyStr.split sep s).
Qed.

(** ** The flattener *)

Section Flatten.

Lemma d_flatten_dict kvs s_path s_prefix :
  d_flatten (PDict kvs) s_path s_prefix = flatten_items s_path s_prefix kvs ∅.
Proof. reflexivity. Qed.

Lemma d_flatten_list l s_path s_prefix :
  d_flatten (PList l) s_path s_prefix = flatten_enumerate s_path s_prefix l 0 ∅.
Proof. reflexivity. Qed.

(** A value that is not a dict is recorded whole under its key, and the
    last item of a dict is not overwritten. *)
Lemma flatten_items_last_leaf s_path s_prefix kvs s_key value acc :
  is_dict value = false →
  flatten_items s_path s_prefix (kvs ++ [(s_key, value)]) acc
    !! new_key s_prefix s_key = Some (value, s_path).
Proof.
  intros Hleaf. revert acc.
  induction kvs as [|[k v] kvs IH]; intros acc.
  - simpl. fold (new_key s_prefix s_key).
    destruct value; try discriminate; by rewrite lookup_insert_eq.
  - simpl. apply IH.
Qed.

(** Elements of a list that are neither dicts nor lists leave no entry. *)
Lemma flatten_enumerate_scalars s_path s_prefix l i acc :
  Forall (fun v => type_of v ≠ TDict ∧ type_of v ≠ TList) l →
  flatten_enumerate s_path s_prefix l i acc = acc.
Proof.
  intros Hall. revert i acc.
  induction Hall as [|v l [Hd Hl] _ IH]; intros i acc; [done|].
  simpl. rewrite IH.
  destruct v; simpl in *; try congruence; by rewrite (left_id_L ∅ (∪)).
Qed.

End Flatten.

Example flatten_flat_map :
  d_flatten (PDict [("x", PInt 1); ("y", PStr "s")]) "f" ""
  = {[ "x" := (PInt 1, "f"); "y" := (PStr "s", "f") ]}.
Proof. vm_compute. reflexivity. Qed.

(** A list at the top holds its dict elements under their index. *)
Example flatten_list_of_maps :
  d_flatten (PList [PDict [("x", PInt 1)]; PDict [("x", PInt 2)]]) "f" ""
  = {[ "0.x" := (PInt 1, "f"); "1.x" := (PInt 2, "f") ]}.
Proof. vm_compute. reflexivity. Qed.

(** A list at the top loses its scalar elements. *)
Example flatten_list_of_scalars :
  d_flatten (PList [PInt 10; PInt 20]) "f" "" = ∅.
Proof. reflexivity. Qed.

(** [C6] Flattening the nested map [{"a": {"b": 1, "c": {"d": 2}}}] with the
    source label [src] yields exactly the two entries
    ["a.b" ↦ (1, src)] and ["a.c.d" ↦ (2, src)]. *)
Theorem flatten_nested_map (src : string) :
  d_flatten (PDict [("a", PDict [("b", PInt 1); ("c", PDict [("d", PInt 2)])])]) src ""
  = {[ "a.b" := (PInt 1, src); "a.c.d" := (PInt 2, src) ]}.
Proof.
  apply map_eq; intros k.
  vm_compute. reflexivity.
Qed.

(** [C3], as the specification states it, fails: the two elements of the
    sequence under ["a"] get no entry of their own.  The flattened map is
    the single entry ["a" ↦ ([10, 20], "f")], and no key, with or without
    an index segment, maps to an element. *)
Lemma flatten_sequence_value_not_split :
  let flat := d_flatten (PDict [("a", PList [PInt 10; PInt 20])]) "f" "" in
  flat = {[ "a" := (PList [PInt 10; PInt 20], "f") ]} ∧
  ¬ (∃ k, flat !! k = Some (PInt 10, "f")) ∧
  ¬ (∃ k, flat !! k = Some (PInt 20, "f")).
Proof.
  assert (Hflat : d_flatten (PDict [("a", PList [PInt 10; PInt 20])]) "f" ""
                  = {[ "a" := (PList [PInt 10; PInt 20], "f") ]})
    by (vm_compute; reflexivity).
  cbv zeta. rewrite Hflat.
  split; [reflexivity|].
  split; intros [k Hk]; apply lookup_singleton_Some in Hk as [_ Hk]; discriminate.
Qed.

(** ** The monad and the module state: bookkeeping *)

Lemma emit_all_nil g : emit_all [] g = g.
Proof. destruct g. unfold emit_all. simpl. by rewrite app_nil_r. Qed.

Lemma emit_all_app evs1 evs2 g :
  emit_all evs2 (emit_all evs1 g) = emit_all (evs1 ++ evs2) g.
Proof. unfold emit_all. simpl. by rewrite app_assoc. Qed.

Lemma emit_is_emit_all e g : emit e g = emit_all [e] g.
Proof. reflexivity. Qed.

(** A sequence returns only when its first part returned. *)
Lemma bind_ok {A B} (m : M A) (k : A → M B) g b g' :
  bind m k g = (Ok b, g') →
  ∃ a g1, m g = (Ok a, g1) ∧ k a g1 = (Ok b, g').
Proof.
  unfold bind. destruct (m g) as [[a|err] g1]; [|discriminate].
  intros H. by exists a, g1.
Qed.

Lemma bind_raise {A B} (m : M A) (k : A → M B) g err g1 :
  m g = (Raise err, g1) → bind m k g = (Raise err, g1).
Proof. unfold bind. by intros ->. Qed.

Lemma bind_step {A B} (m : M A) (k : A → M B) g a g1 :
  m g = (Ok a, g1) → bind m k g = k a g1.
Proof. unfold bind. by intros ->. Qed.

Section Discovery.

Variable os : OS.

Lemma warn_files_emits paths g :
  ∃ evs, warn_files os paths g = (Ok tt, emit_all evs g).
Proof.
  revert g. induction paths as [|p paths IH]; intros g.
  - exists []. by rewrite emit_all_nil.
  - cbn [warn_files]. unfold bind, warn, modify, ret.
    destruct (is_file os p).
    + destruct (IH (emit (Warned ("Expected directory but found file: " +:+ p)) g))
        as [evs ->].
      eexists. by rewrite emit_is_emit_all, emit_all_app.
    + apply IH.
Qed.

Lemma get_source_paths_emits self g :
  ∃ evs, _get_source_paths os self g = (Ok (source_dirs os self), emit_all evs g).
Proof.
  unfold _get_source_paths, bind, ret. fold (source_dirs os self).
  destruct (warn_files_emits (source_dirs os self) g) as [evs ->].
  by exists evs.
Qed.

Lemma get_all_source_files_emits self g :
  ∃ evs, _get_all_source_files os self g = (Ok (discovered os self), emit_all evs g).
Proof.
  unfold _get_all_source_files. unfold bind at 1.
  destruct (get_source_paths_emits self g) as [evs ->].
  by exists evs.
Qed.

End Discovery.

(** ** Resolution: what [_get_resource] returns and writes *)

Section Resolution.

Variable self : ResourceManager.
Variable s_resource : string.

(** The probing loop only emits warnings, and a match is written to the
    cache under the requested key. *)
Lemma probe_files_result files sa_parts g r g' :
  probe_files self s_resource files sa_parts g = (r, g') →
  (∃ evs, g' = emit_all evs g) ∧
  (∀ e self', r = Ok (e, self') → self' = set_data (insert s_resource e) self).
Proof.
  revert sa_parts g.
  induction files as [|[path ext] files IH]; intros sa_parts g H.
  - cbn in H. injection H as <- <-. split; [|done].
    exists []. by rewrite emit_all_nil.
  - cbn [probe_files] in H. unfold bind, read in H.
    destruct (_D_PARSERS g !! PyStr.lower ext) as [x_parser|].
    + unfold lift in H.
      destruct (x_parser path) as [data|err].
      * destruct (descend data sa_parts) as [[data' left]|err].
        -- destruct left as [|s left].
           ++ unfold ret in H. injection H as <- <-. split.
              ** exists []. by rewrite emit_all_nil.
              ** by intros e self' [= <- <-].
           ++ by apply IH in H.
        -- injection H as <- <-. split; [|done].
           exists []. by rewrite emit_all_nil.
      * injection H as <- <-. split; [|done].
        exists []. by rewrite emit_all_nil.
    + unfold warn, modify in H. apply IH in H as [[evs ->] Hok]. split; [|done].
      eexists. by rewrite emit_is_emit_all, emit_all_app.
Qed.

(** The three ways [_get_resource] returns: an override, a cache hit, or a
    fresh resolution that writes the cache. *)
Lemma get_resource_result os b_reload g e self' g' :
  _get_resource os self s_resource b_reload g = (Ok (e, self'), g') →
  (_D_OVERRIDES self !! s_resource = Some e ∧ self' = self ∧ g' = g) ∨
  (_D_OVERRIDES self !! s_resource = None ∧ _D_DATA self !! s_resource = Some e ∧
   b_reload = false ∧ self' = self ∧ g' = g) ∨
  (_D_OVERRIDES self !! s_resource = None ∧
   self' = set_data (insert s_resource e) self ∧ ∃ evs, g' = emit_all evs g).
Proof.
  unfold _get_resource. intros H.
  destruct (_D_OVERRIDES self !! s_resource) as [e0|] eqn:Hov.
  { injection H as <- <- <-. by left. }
  assert (Hfresh :
    (if PyStr.contains PyStr.star s_resource
     then raise (RGError "No wildcard search allowed yet!")
     else let* files := _get_all_source_files os self in
          probe_files self s_resource files (PyStr.split PyStr.dot s_resource)) g
    = (Ok (e, self'), g') →
    self' = set_data (insert s_resource e) self ∧ ∃ evs, g' = emit_all evs g).
  { clear H. intros H.
    destruct (PyStr.contains PyStr.star s_resource); [discriminate|].
    unfold bind in H.
    destruct (get_all_source_files_emits os self g) as [evs Hfiles].
    rewrite Hfiles in H.
    apply probe_files_result in H as [[evs' ->] Hok].
    split; [by apply Hok|].
    eexists. by rewrite emit_all_app. }
  destruct (_D_DATA self !! s_resource) as [e1|] eqn:Hdata.
  - destruct b_reload.
    + right; right. by apply Hfresh in H as [-> ?].
    + injection H as <- <- <-. right; left. done.
  - right; right. by apply Hfresh in H as [-> ?].
Qed.

End Resolution.

(** Case analysis on a resolution that returned: in each case the manager
    returned is substituted. *)
Ltac resolution_cases H :=
  apply get_resource_result in H
    as [(? & -> & ?)|[(? & ? & ? & -> & ?)|(? & -> & ?)]].



(** [bool] and [NoneType] cannot be subclassed: no wrapper for them. *)
Lemma wrap_bool_raises b g :
  _D_TYPES g !! TBool = None →
  wrap (PBool b) g = (Raise (TypeError "type 'bool' is not an acceptable base type"), g).
Proof. intros H. unfold wrap, bind, read, raise. simpl. by rewrite H. Qed.


(** ** The transformer loop when no rule accepts *)

Lemma elem_of_rev {A} (x : A) (l : list A) : x ∈ rev l ↔ x ∈ l.
Proof. rewrite rev_alt. apply elem_of_reverse. Qed.

Lemma transform_loop_none xaa value :
  (∀ t, t ∈ xaa → fst t value = false) → transform_loop xaa value = value.
Proof.
  induction xaa as [|[c f] xaa IH]; intros Hall; [done|].
  simpl. assert (c value = false) as -> by (apply (Hall (c, f)), list_elem_of_here).
  apply IH. intros t Ht. by apply Hall, list_elem_of_further.
Qed.

(** ** Overrides *)

Lemma override_lookup self s_resource value :
  _D_OVERRIDES (override self s_resource value) !! s_resource = Some (value, "override").
Proof. unfold override. simpl. apply lookup_insert_eq. Qed.

Lemma override_keeps_cache self s_resource value :
  _D_DATA (override self s_resource value) = _D_DATA self.
Proof. reflexivity. Qed.

Lemma remove_override_lookup self s_resource :
  _D_OVERRIDES (remove_override self s_resource) !! s_resource = None.
Proof.
  unfold remove_override.
  destruct (_D_OVERRIDES self !! s_resource) eqn:H; simpl; [|done].
  apply lookup_delete_eq.
Qed.


(** ** Transformers *)

Lemma transform_loop_first skipped x_check x_transform rest value :
  (∀ t, t ∈ skipped → fst t value = false) →
  x_check value = true →
  transform_loop (skipped ++ (x_check, x_transform) :: rest) value = x_transform value.
Proof.
  induction skipped as [|[c f] skipped IH]; intros Hall Hacc; simpl.
  - by rewrite Hacc.
  - assert (c value = false) as -> by (apply (Hall (c, f)), list_elem_of_here).
    apply IH; [|done]. intros t Ht. by apply Hall, list_elem_of_further.
Qed.

Lemma transform_loop_cases xaa value :
  transform_loop xaa value = value ∨
  ∃ x_check x_transform,
    (x_check, x_transform) ∈ xaa ∧ x_check value = true ∧
    transform_loop xaa value = x_transform value.
Proof.
  induction xaa as [|[c f] xaa IH]; [by left|].
  simpl. destruct (c value) eqn:Hc.
  - right. exists c, f. split; [apply list_elem_of_here|done].
  - destruct IH as [IH|(c' & f' & Hin & Hacc & IH)]; [by left|].
    right. exists c', f'. split; [by apply list_elem_of_further|done].
Qed.


Lemma get_resource_keeps_transformers os self s_resource b_reload g e self' g' :
  _get_resource os self s_resource b_reload g = (Ok (e, self'), g') →
  _XAA_TRANSFORMERS self' = _XAA_TRANSFORMERS self ∧
  _D_OVERRIDES self' = _D_OVERRIDES self.
Proof.
  intros H. by resolution_cases H.
Qed.

(** [C7] On every [get] call whose resolution yields a value, the rules are
    tried from the most recently registered to the oldest against that
    value: the result handed to the wrapper is the transform of the latest
    registered rule whose check accepts it, whatever older rules would do;
    it is the value itself when no check accepts it; in no case is more
    than one transform applied.  [register_transformer] appends, so a rule
    registered now is tried first. *)
Theorem transformer_latest_accepting_first
    (os : OS) (self : ResourceManager) (s_resource : string) (b_reload : bool)
    (g : globals) (e : entry) (self' : ResourceManager) (g1 : globals)
    (Hres : _get_resource os self s_resource b_reload g = (Ok (e, self'), g1)) :
  ∃ value : pyval,
    get os self s_resource b_reload g
      = (let* obj := wrap value in ret (obj, self')) g1 ∧
    (value = fst e ∨
     ∃ x_check x_transform,
       (x_check, x_transform) ∈ _XAA_TRANSFORMERS self ∧
       x_check (fst e) = true ∧ value = x_transform (fst e)) ∧
    ((∀ t, t ∈ _XAA_TRANSFORMERS self → fst t (fst e) = false) → value = fst e) ∧
    (∀ before x_check x_transform after,
       _XAA_TRANSFORMERS self = before ++ (x_check, x_transform) :: after →
       x_check (fst e) = true →
       (∀ t, t ∈ after → fst t (fst e) = false) →
       value = x_transform (fst e)) ∧
    (∀ x_check x_transform,
       _XAA_TRANSFORMERS (register_transformer self x_check x_transform)
       = _XAA_TRANSFORMERS self ++ [(x_check, x_transform)]).
Proof.
  pose proof (get_resource_keeps_transformers _ _ _ _ _ _ _ _ Hres) as [Hts _].
  exists (transform_loop (rev (_XAA_TRANSFORMERS self)) (fst e)).
  split; [|split; [|split; [|split]]].
  - unfold get. rewrite (bind_step _ _ _ _ _ Hres). by rewrite Hts.
  - destruct (transform_loop_cases (rev (_XAA_TRANSFORMERS self)) (fst e))
      as [H|(c & f & Hin & Hacc & H)]; [by left|].
    right. exists c, f. by rewrite elem_of_rev in Hin.
  - intros Hall. apply transform_loop_none.
    intros t Ht. apply Hall. by rewrite elem_of_rev in Ht.
  - intros before c f after Heq Hacc Hall.
    rewrite Heq, rev_app_distr. simpl. rewrite <- app_assoc. simpl.
    apply transform_loop_first; [|done].
    intros t Ht. apply Hall. by rewrite elem_of_rev in Ht.
  - intros c f. reflexivity.
Qed.

Lemma transformer_latest_accepting_first_witness :
  let self :=
    register_transformer
      (register_transformer Fixtures.lazy_manager Fixtures.is_int Fixtures.double)
      Fixtures.is_int Fixtures.negate in
  let g := module_globals Fixtures.parse_two None in
  let cached := set_data (insert "a.x" (PInt 1, "/d1/CFG.json")) self in
  _get_resource Fixtures.two_dirs self "a.x" false g
    = (Ok ((PInt 1, "/d1/CFG.json"), cached), g) ∧
  get Fixtures.two_dirs self "a.x" false g
    = (let* obj := wrap (PInt (-1)) in ret (obj, cached)) g.
Proof.
  intros self g cached.
  assert (Hres : _get_resource Fixtures.two_dirs self "a.x" false g
                 = (Ok ((PInt 1, "/d1/CFG.json"), cached), g))
    by (vm_compute; reflexivity).
  split; [exact Hres|].
  destruct (transformer_latest_accepting_first _ _ _ _ _ _ _ _ Hres)
    as (value & Hget & _ & _ & Hlatest & _).
  rewrite Hget.
  rewrite (Hlatest [(Fixtures.is_int, Fixtures.double)] Fixtures.is_int Fixtures.negate []);
    [reflexivity|reflexivity|reflexivity|].
  intros t Ht. by apply elem_of_nil in Ht.
Defined.

(** ** Incidents *)

Lemma incident_call_error inc s_message g :
  _I_SEVERITY inc = ERROR →
  Incident_call inc s_message g
  = (Raise (RGError (_S_NAME inc +:+ ": " +:+
                     PyStr.replace PyStr.newline (PyStr.nl +:+ "    ") s_message)), g).
Proof. intros H. unfold Incident_call. by rewrite H. Qed.

Lemma incident_call_warning inc s_message g :
  _I_SEVERITY inc = WARNING →
  Incident_call inc s_message g
  = (Ok tt, emit (Warned (PyStr.replace PyStr.newline (PyStr.nl +:+ "    ") s_message)) g).
Proof. intros H. unfold Incident_call. by rewrite H. Qed.

Lemma incident_call_message inc s_message g :
  _I_SEVERITY inc = MESSAGE →
  Incident_call inc s_message g
  = (Ok tt,
     emit (Printed ("# " +:+ _S_NAME inc +:+ ": " +:+
                    PyStr.replace PyStr.newline
                      (PyStr.nl +:+ "#   " +:+ PyStr.spaces (String.length (_S_NAME inc)))
                      s_message)) g).
Proof. intros H. unfold Incident_call. by rewrite H. Qed.

(** An incident that returns has emitted one event and changed nothing else. *)
Lemma incident_call_ok inc s_message g g' :
  Incident_call inc s_message g = (Ok tt, g') → ∃ ev, g' = emit ev g.
Proof.
  unfold Incident_call.
  destruct (_I_SEVERITY inc =? ERROR)%Z; [discriminate|].
  destruct (_I_SEVERITY inc =? WARNING)%Z; [intros [= <-]; by eexists|].
  destruct (_I_SEVERITY inc =? MESSAGE)%Z; [intros [= <-]; by eexists|].
  discriminate.
Qed.

(** The incidents of the module are what [Incident(name, severity)] builds. *)
Lemma module_incidents parse_json parse_yaml :
  let g := module_globals parse_json parse_yaml in
  Incident_init "Wildcard" MESSAGE = Ok (INCIDENT_WILDCARD g) ∧
  Incident_init "ExpectedFile" ERROR = Ok (INCIDENT_EXPECTED_FILE g) ∧
  Incident_init "UnknownExtension" ERROR = Ok (INCIDENT_NO_EXTENSION g).
Proof. done. Qed.

(** ** Wildcards *)



(** ** Eager load *)

(** One turn of the loop. *)
Lemma load_files_cons path ext rest d_data g :
  load_files ((path, ext) :: rest) d_data g
  = match _D_PARSERS g !! PyStr.lower (PyStr.rpartition_tail PyStr.dot path) with
    | None =>
        (Incident_call (INCIDENT_NO_EXTENSION g)
           (no_parser_text (PyStr.rpartition_tail PyStr.dot path) path) ;;;
         load_files rest d_data) g
    | Some x_parser =>
        (let* data := lift (x_parser path) in
         load_files rest (d_flatten data path "" ∪ d_data)) g
    end.
Proof.
  cbn [load_files]. unfold bind at 1, read.
  by destruct (_D_PARSERS g !! _).
Qed.

Section EagerLoad.

Variable g : globals.
Variable path ext : string.
Hypothesis Hnone : no_parser g path.

Lemma load_files_unknown_error rest d_data :
  _I_SEVERITY (INCIDENT_NO_EXTENSION g) = ERROR →
  load_files ((path, ext) :: rest) d_data g = (Raise (no_parser_error g path), g).
Proof.
  intros Hsev. rewrite load_files_cons.
  unfold no_parser in Hnone. rewrite Hnone.
  apply bind_raise. by apply incident_call_error.
Qed.

Lemma load_files_unknown_warning rest d_data :
  _I_SEVERITY (INCIDENT_NO_EXTENSION g) = WARNING →
  load_files ((path, ext) :: rest) d_data g
  = load_files rest d_data (emit (no_parser_warning path) g).
Proof.
  intros Hsev. rewrite load_files_cons.
  unfold no_parser in Hnone. rewrite Hnone.
  by rewrite (bind_step _ _ _ _ _ (incident_call_warning _ _ _ Hsev)).
Qed.

Lemma load_files_unknown_message rest d_data :
  _I_SEVERITY (INCIDENT_NO_EXTENSION g) = MESSAGE →
  load_files ((path, ext) :: rest) d_data g
  = load_files rest d_data (emit (no_parser_message g path) g).
Proof.
  intros Hsev. rewrite load_files_cons.
  unfold no_parser in Hnone. rewrite Hnone.
  by rewrite (bind_step _ _ _ _ _ (incident_call_message _ _ _ Hsev)).
Qed.

End EagerLoad.

(** Under the fatal severity the loop never gets past a file without a
    parser: it raises there, or earlier when a parser raised. *)
Lemma load_files_raises g files d_data :
  _I_SEVERITY (INCIDENT_NO_EXTENSION g) = ERROR →
  (∃ f, f ∈ files ∧ no_parser g (fst f)) →
  ∃ err, load_files files d_data g = (Raise err, g).
Proof.
  intros Hsev (f & Hin & Hnone). revert d_data.
  induction files as [|[path ext] files IH]; intros d_data.
  { by apply elem_of_nil in Hin. }
  destruct (_D_PARSERS g !! PyStr.lower (PyStr.rpartition_tail PyStr.dot path))
    as [x_parser|] eqn:Hlook.
  - rewrite load_files_cons, Hlook.
    unfold bind, lift. destruct (x_parser path) as [data|err]; [|by eexists].
    apply IH. apply elem_of_cons in Hin as [->|Hin]; [|done].
    unfold no_parser in Hnone. simpl in Hnone. congruence.
  - eexists. by apply load_files_unknown_error.
Qed.

(** The constructor does not return when a discovered file has no parser
    and the severity of the incident is the fatal one. *)
Lemma init_raises os s_category src g f :
  _I_SEVERITY (INCIDENT_NO_EXTENSION g) = ERROR →
  f ∈ discovered os (blank s_category src) →
  no_parser g (fst f) →
  ∃ err g', __init__ os s_category src true g = (Raise err, g').
Proof.
  intros Hsev Hin Hnone. unfold __init__.
  set (check := if PyStr.contains PyStr.star s_category then _ else _).
  assert (Hcheck : (∃ err g1, check g = (Raise err, g1)) ∨
                   (∃ evs, check g = (Ok tt, emit_all evs g))).
  { subst check. destruct (PyStr.contains PyStr.star s_category).
    - unfold bind, read.
      destruct (Incident_call (INCIDENT_WILDCARD g) _ g) as [[[]|err] g1] eqn:Hcall.
      + right. apply incident_call_ok in Hcall as [ev ->]. by exists [ev].
      + left. by eexists _, _.
    - right. exists []. by rewrite emit_all_nil. }
  destruct Hcheck as [(err & g1 & Hcheck)|(evs & Hcheck)].
  { exists err, g1. by apply bind_raise. }
  rewrite (bind_step _ _ _ _ _ Hcheck). simpl.
  fold (blank s_category src).
  destruct (get_all_source_files_emits os (blank s_category src) (emit_all evs g))
    as [evs' Hfiles].
  rewrite (bind_step _ _ _ _ _ Hfiles).
  destruct (load_files_raises (emit_all evs' (emit_all evs g))
              (rev (discovered os (blank s_category src))) ∅) as [err Herr].
  - done.
  - exists f. split; [by apply elem_of_rev|done].
  - exists err, (emit_all evs' (emit_all evs g)). by apply bind_raise.
Qed.

(** [C2], as the specification states it, fails: with [CFG.json] and
    [CFG.TXT] in the directory and no parser for [TXT], the constructor
    raises the module error and returns no manager; the data of
    [CFG.json] is not loaded. *)
Lemma eager_load_unknown_extension_aborts_constructor :
  let g := module_globals Fixtures.parse_k None in
  __init__ Fixtures.mixed_dir "CFG" (SourcePaths ["/d"]) true g
  = (Raise (RGError "UnknownExtension: No parser found for: 'TXT' (/d/CFG.TXT)"), g).
Proof. vm_compute. reflexivity. Qed.

(** [C2], amended: during the eager load a discovered file whose extension
    has no registered parser is fatal under the default severity: the
    error of the [UnknownExtension] incident is raised at that file and
    leaves the constructor, which returns no manager.  Only when the
    severity of that incident was lowered to warning or message is the
    file alone skipped, after the notice, and the load goes on with the
    remaining files. *)
Theorem eager_load_missing_parser
    (os : OS) (s_category : string) (src : source) (g : globals)
    (f : string * string)
    (Hin : f ∈ discovered os (blank s_category src))
    (Hnone : no_parser g (fst f)) :
  (_I_SEVERITY (INCIDENT_NO_EXTENSION g) = ERROR →
     (∀ rest d_data,
        load_files (f :: rest) d_data g = (Raise (no_parser_error g (fst f)), g)) ∧
     ∃ err g', __init__ os s_category src true g = (Raise err, g')) ∧
  (_I_SEVERITY (INCIDENT_NO_EXTENSION g) = WARNING →
     ∀ rest d_data,
       load_files (f :: rest) d_data g
       = load_files rest d_data (emit (no_parser_warning (fst f)) g)) ∧
  (_I_SEVERITY (INCIDENT_NO_EXTENSION g) = MESSAGE →
     ∀ rest d_data,
       load_files (f :: rest) d_data g
       = load_files rest d_data (emit (no_parser_message g (fst f)) g)).
Proof.
  destruct f as [path ext]. simpl in *.
  split; [|split].
  - intros Hsev. split.
    + intros rest d_data. by apply (load_files_unknown_error g path ext).
    + by apply (init_raises os s_category src g (path, ext)).
  - intros Hsev rest d_data. by apply (load_files_unknown_warning g path ext).
  - intros Hsev rest d_data. by apply (load_files_unknown_message g path ext).
Qed.

Lemma eager_load_missing_parser_witness :
  let g := module_globals Fixtures.parse_k None in
  let lowered :=
    set_no_extension {| _S_NAME := "UnknownExtension"; _I_SEVERITY := WARNING |} g in
  (∃ err g', __init__ Fixtures.mixed_dir "CFG" (SourcePaths ["/d"]) true g
             = (Raise err, g')) ∧
  load_files [("/d/CFG.TXT", "TXT"); ("/d/CFG.json", "json")] ∅ lowered
  = load_files [("/d/CFG.json", "json")] ∅
      (emit (no_parser_warning "/d/CFG.TXT") lowered).
Proof.
  intros g lowered.
  assert (Hin : ("/d/CFG.TXT", "TXT")
                ∈ discovered Fixtures.mixed_dir (blank "CFG" (SourcePaths ["/d"]))).
  { apply list_elem_of_further, list_elem_of_here. }
  split.
  - destruct (eager_load_missing_parser Fixtures.mixed_dir "CFG" (SourcePaths ["/d"]) g
                ("/d/CFG.TXT", "TXT") Hin eq_refl) as [Herror _].
    apply Herror. reflexivity.
  - destruct (eager_load_missing_parser Fixtures.mixed_dir "CFG" (SourcePaths ["/d"])
                lowered ("/d/CFG.TXT", "TXT") Hin eq_refl) as (_ & Hwarning & _).
    apply Hwarning. reflexivity.
Defined.

(** With the severity lowered the same directory loads: the file without a
    parser is skipped with a warning and the cache holds the other file. *)
Example eager_load_lowered_severity :
  let g := set_no_extension {| _S_NAME := "UnknownExtension"; _I_SEVERITY := WARNING |}
             (module_globals Fixtures.parse_k None) in
  __init__ Fixtures.mixed_dir "CFG" (SourcePaths ["/d"]) true g
  = (Ok (set_data (fun _ => {[ "k" := (PInt 1, "/d/CFG.json") ]})
           (blank "CFG" (SourcePaths ["/d"]))),
     emit (Warned "No parser found for: 'TXT' (/d/CFG.TXT)") g).
Proof. vm_compute. reflexivity. Qed.

(** ** Single-key lookup: the probing loop *)

(** One turn of the loop. *)
Lemma probe_files_cons self s_resource path ext rest sa_parts g :
  probe_files self s_resource ((path, ext) :: rest) sa_parts g
  = match _D_PARSERS g !! PyStr.lower ext with
    | None =>
        (warn (no_parser_text ext path) ;;;
         probe_files self s_resource rest sa_parts) g
    | Some x_parser =>
        (let* data := lift (x_parser path) in
         let* (data, sa_parts) := lift (descend data sa_parts) in
         match sa_parts with
         | _ :: _ => probe_files self s_resource rest sa_parts
         | [] => ret ((data, path),
                      set_data (insert s_resource (data, path)) self)
         end) g
    end.
Proof.
  cbn [probe_files]. unfold bind at 1, read.
  by destruct (_D_PARSERS g !! _).
Qed.

(** A file that matches only some leading segments hands the segments it
    did not consume, not the original list, to the next file. *)
Lemma probe_files_partial_match self s_resource path ext rest sa_parts g
    x_parser data reached s_token left :
  _D_PARSERS g !! PyStr.lower ext = Some x_parser →
  x_parser path = Ok data →
  descend data sa_parts = Ok (reached, s_token :: left) →
  probe_files self s_resource ((path, ext) :: rest) sa_parts g
  = probe_files self s_resource rest (s_token :: left) g.
Proof.
  intros Hlook Hparse Hdesc.
  rewrite probe_files_cons, Hlook. unfold bind, lift.
  by rewrite Hparse, Hdesc.
Qed.

(** A file that holds every segment settles the lookup. *)
Lemma probe_files_full_match self s_resource path ext rest sa_parts g
    x_parser data reached :
  _D_PARSERS g !! PyStr.lower ext = Some x_parser →
  x_parser path = Ok data →
  descend data sa_parts = Ok (reached, []) →
  probe_files self s_resource ((path, ext) :: rest) sa_parts g
  = (Ok ((reached, path), set_data (insert s_resource (reached, path)) self), g).
Proof.
  intros Hlook Hparse Hdesc.
  rewrite probe_files_cons, Hlook. unfold bind, lift.
  by rewrite Hparse, Hdesc.
Qed.

(** What is left after a descent is a suffix of what was asked. *)
Lemma descend_suffix data sa_parts reached left :
  descend data sa_parts = Ok (reached, left) → left `suffix_of` sa_parts.
Proof.
  revert data. induction sa_parts as [|s sa_parts IH]; intros data H.
  - injection H as _ <-. done.
  - simpl in H. destruct data; try discriminate.
    destruct (dict_get kvs s) as [v|].
    + apply IH in H. by apply suffix_cons_r.
    + by injection H as _ <-.
Qed.

(** When no file has the first segment at its top level, be it for want of
    a parser, the lookup ends in the "not found" error that names the key. *)
Lemma probe_files_first_segment_missing self s_resource files s_first sa_rest g :
  Forall (fun f =>
            _D_PARSERS g !! PyStr.lower (snd f) = None ∨
            ∃ x_parser kvs,
              _D_PARSERS g !! PyStr.lower (snd f) = Some x_parser ∧
              x_parser (fst f) = Ok (PDict kvs) ∧ dict_get kvs s_first = None) files →
  ∃ evs, probe_files self s_resource files (s_first :: sa_rest) g
         = (Raise (RGError ("Could not find " +:+ s_resource)), emit_all evs g).
Proof.
  intros Hall. revert g Hall.
  induction files as [|[path ext] files IH]; intros g Hall.
  - exists []. by rewrite emit_all_nil.
  - apply Forall_cons in Hall as [Hf Hall]. simpl in Hf.
    rewrite probe_files_cons.
    destruct Hf as [Hnone|(x_parser & kvs & Hlook & Hparse & Hget)].
    + rewrite Hnone. unfold bind, warn, modify.
      destruct (IH (emit (Warned (no_parser_text ext path)) g)) as [evs ->]; [done|].
      eexists. by rewrite emit_is_emit_all, emit_all_app.
    + rewrite Hlook. unfold bind, lift. rewrite Hparse. simpl. rewrite Hget.
      by apply IH.
Qed.

(** The same for [get]: with no override, no usable cache entry and no
    wildcard, such a key ends in the "not found" error. *)
Lemma get_first_segment_missing os self s_resource b_reload g s_first sa_rest :
  _D_OVERRIDES self !! s_resource = None →
  _D_DATA self !! s_resource = None ∨ b_reload = true →
  PyStr.contains PyStr.star s_resource = false →
  PyStr.split PyStr.dot s_resource = s_first :: sa_rest →
  Forall (fun f =>
            _D_PARSERS g !! PyStr.lower (snd f) = None ∨
            ∃ x_parser kvs,
              _D_PARSERS g !! PyStr.lower (snd f) = Some x_parser ∧
              x_parser (fst f) = Ok (PDict kvs) ∧ dict_get kvs s_first = None)
         (discovered os self) →
  ∃ evs, get os self s_resource b_reload g
         = (Raise (RGError ("Could not find " +:+ s_resource)), emit_all evs g).
Proof.
  intros Hov Hdata Hstar Hsplit Hall.
  destruct (get_all_source_files_emits os self g) as [evs Hfiles].
  destruct (probe_files_first_segment_missing self s_resource (discovered os self)
              s_first sa_rest (emit_all evs g) Hall) as [evs' Hprobe].
  exists (evs ++ evs'). rewrite <- emit_all_app.
  unfold get. apply bind_raise.
  assert (Hfresh :
    (let* files := _get_all_source_files os self in
     probe_files self s_resource files (s_first :: sa_rest)) g
    = (Raise (RGError ("Could not find " +:+ s_resource)),
       emit_all evs' (emit_all evs g))).
  { by rewrite (bind_step _ _ _ _ _ Hfiles). }
  unfold _get_resource. rewrite Hov, Hstar, Hsplit.
  destruct Hdata as [->| ->]; [done|].
  by destruct (_D_DATA self !! s_resource).
Qed.

Example get_unknown_key :
  let g := module_globals Fixtures.parse_two None in
  get Fixtures.two_dirs Fixtures.lazy_manager "does.not.exist" false g
  = (Raise (RGError "Could not find does.not.exist"), g).
Proof. vm_compute. reflexivity. Qed.

(** [C1] On a partial match the loop does not start the next file again
    from the first segment.  With [{"a": {"x": 1}}] in the first file and
    [{"b": 2}] in the second, the lookup of ["a.b"] consumes ["a"] in the
    first file and probes the second with ["b"] alone: it returns the
    top-level ["b"] of the second file, which does not hold ["a.b"].  The
    loop that retries the full segment list, as the specification words
    it, reports the key as not found. *)
Theorem probe_hands_on_leftover_segments :
  let g := module_globals Fixtures.parse_two None in
  let hit := (PInt 2, "/d2/CFG.json") in
  let files := discovered Fixtures.two_dirs Fixtures.lazy_manager in
  files = [("/d1/CFG.json", "json"); ("/d2/CFG.json", "json")] ∧
  PyStr.split PyStr.dot "a.b" = ["a"; "b"] ∧
  descend (PDict [("a", PDict [("x", PInt 1)])]) ["a"; "b"]
    = Ok (PDict [("x", PInt 1)], ["b"]) ∧
  descend (PDict [("b", PInt 2)]) ["a"; "b"] = Ok (PDict [("b", PInt 2)], ["a"; "b"]) ∧
  _get_resource Fixtures.two_dirs Fixtures.lazy_manager "a.b" false g
    = (Ok (hit, set_data (insert "a.b" hit) Fixtures.lazy_manager), g) ∧
  spec_probe_files Fixtures.lazy_manager "a.b" files (PyStr.split PyStr.dot "a.b") g
    = (Raise (RGError "Could not find a.b"), g).
Proof.
  repeat split; vm_compute; reflexivity.
Qed.

(** [C9] A key that no discovered file resolves in full is not always
    reported as not found.  In the first setting the segments left over
    from one file match the top level of the next, and [get] returns that
    value; in the second the descent reaches a leaf with a segment left,
    and [get] raises the [AttributeError] of [data.keys()]. *)
Theorem unresolved_key_not_reported :
  (let g := module_globals Fixtures.parse_two None in
   _D_OVERRIDES Fixtures.lazy_manager !! "a.b" = None ∧
   _D_DATA Fixtures.lazy_manager !! "a.b" = None ∧
   PyStr.contains PyStr.star "a.b" = false ∧
   (∀ f, f ∈ discovered Fixtures.two_dirs Fixtures.lazy_manager → ¬ resolves g f "a.b") ∧
   get Fixtures.two_dirs Fixtures.lazy_manager "a.b" false g
     = finish (set_data (insert "a.b" (PInt 2, "/d2/CFG.json")) Fixtures.lazy_manager)
         (PInt 2) g) ∧
  (let g := module_globals Fixtures.parse_leaf None in
   _D_OVERRIDES Fixtures.d_manager !! "a.b" = None ∧
   _D_DATA Fixtures.d_manager !! "a.b" = None ∧
   (∀ f, f ∈ discovered Fixtures.one_dir Fixtures.d_manager → ¬ resolves g f "a.b") ∧
   get Fixtures.one_dir Fixtures.d_manager "a.b" false g
     = (Raise (AttributeError "'int' object has no attribute 'keys'"), g)).
Proof.
  split; cbv zeta.
  - split; [reflexivity|]. split; [reflexivity|]. split; [reflexivity|]. split.
    + intros f Hf (x_parser & data & value & Hlook & Hparse & Hdesc).
      change (discovered Fixtures.two_dirs Fixtures.lazy_manager)
        with [("/d1/CFG.json", "json"); ("/d2/CFG.json", "json")] in Hf.
      apply elem_of_cons in Hf as [->|Hf];
        [|apply elem_of_cons in Hf as [->|Hf]; [|by apply elem_of_nil in Hf]];
        vm_compute in Hlook; injection Hlook as <-;
        vm_compute in Hparse; injection Hparse as <-;
        vm_compute in Hdesc; discriminate.
    + vm_compute. reflexivity.
  - split; [reflexivity|]. split; [reflexivity|]. split.
    + intros f Hf (x_parser & data & value & Hlook & Hparse & Hdesc).
      change (discovered Fixtures.one_dir Fixtures.d_manager)
        with [("/d/CFG.json", "json")] in Hf.
      apply elem_of_cons in Hf as [->|Hf]; [|by apply elem_of_nil in Hf].
      vm_compute in Hlook; injection Hlook as <-.
      vm_compute in Hparse; injection Hparse as <-.
      vm_compute in Hdesc; discriminate.
    + vm_compute. reflexivity.
Qed.

(** ** The parser registry *)

Lemma register_parser_lookup s_format x_parser g :
  _D_PARSERS (snd (register_parser s_format x_parser g)) !! s_format = Some x_parser.
Proof. unfold register_parser, modify. simpl. apply lookup_insert_eq. Qed.

Lemma register_parser_other s_format x_parser g s_key :
  s_format ≠ s_key →
  _D_PARSERS (snd (register_parser s_format x_parser g)) !! s_key = _D_PARSERS g !! s_key.
Proof. intros Hne. unfold register_parser, modify. simpl. by apply lookup_insert_ne. Qed.

(** A format given in lower case is found for every spelling of the
    extension. *)
Lemma register_parser_lowercase_dispatch s_format x_parser g s_extension :
  PyStr.lower s_extension = s_format →
  _D_PARSERS (snd (register_parser s_format x_parser g)) !! PyStr.lower s_extension
  = Some x_parser.
Proof. intros ->. apply register_parser_lookup. Qed.

(** [C4] [register_parser] files the parser under the format name as
    given, not under its lower-case form.  Registered as ["TXT"], the
    parser sits under the key ["TXT"], the lookup of a file [CFG.TXT] (or
    [CFG.txt]) asks for ["txt"] and finds what was there before: the eager
    load raises the [UnknownExtension] error and a single-key lookup warns
    and fails, although the file holds the key. *)
Theorem register_parser_keeps_case (x_parser : parser) (g : globals) :
  _D_PARSERS (snd (register_parser "TXT" x_parser g)) !! "TXT" = Some x_parser ∧
  _D_PARSERS (snd (register_parser "TXT" x_parser g))
    !! PyStr.lower (PyStr.rpartition_tail PyStr.dot "/d/CFG.TXT")
  = _D_PARSERS g !! "txt" ∧
  let g0 := snd (register_parser "TXT" Fixtures.parse_txt
                   (module_globals Fixtures.parse_k None)) in
  Fixtures.parse_txt "/d/CFG.TXT" = Ok (PDict [("t", PStr "text")]) ∧
  __init__ Fixtures.mixed_dir "CFG" (SourcePaths ["/d"]) true g0
    = (Raise (RGError "UnknownExtension: No parser found for: 'TXT' (/d/CFG.TXT)"), g0) ∧
  get Fixtures.mixed_dir Fixtures.d_manager "t" false g0
    = (Raise (RGError "Could not find t"),
       emit (Warned "No parser found for: 'TXT' (/d/CFG.TXT)") g0).
Proof.
  split; [apply register_parser_lookup|].
  split; [by apply register_parser_other|].
  repeat split; vm_compute; reflexivity.
Qed.

(** ** What the tables hold, and what [get] does to a value *)





(** The transform shows in the object returned, never in the cache: two
    calls, the second a cache hit, give two objects of value [2], while the
    cache holds [1]. *)
Example get_twice_transforms_twice :
  let self := register_transformer Fixtures.lazy_manager Fixtures.is_int Fixtures.double in
  let g := module_globals Fixtures.parse_two None in
  (let* (obj1, self1) := get Fixtures.two_dirs self "a.x" false in
   let* (obj2, self2) := get Fixtures.two_dirs self1 "a.x" false in
   ret (obj1, obj2, _D_DATA self2 !! "a.x")) g
  = (Ok ({| rg_id := 0; rg_class := "RGint"; rg_value := PInt 2 |},
         {| rg_id := 1; rg_class := "RGint"; rg_value := PInt 2 |},
         Some (PInt 1, "/d1/CFG.json")),
     bump_id (bump_id (set_types (insert TInt "RGint") g))).
Proof. vm_compute. reflexivity. Qed.

(** ** Incidents: the severity stays one of the three levels *)

Lemma set_severity_ok inc i_severity inc' :
  set_severity inc i_severity = Ok inc' →
  _S_NAME inc' = _S_NAME inc ∧ _I_SEVERITY inc' = i_severity ∧
  (i_severity = ERROR ∨ i_severity = WARNING ∨ i_severity = MESSAGE).
Proof.
  unfold set_severity. case_bool_decide as Hin; [|discriminate].
  intros [= <-]. repeat split.
  repeat (apply elem_of_cons in Hin as [->|Hin]; [tauto|]).
  by apply elem_of_nil in Hin.
Qed.

Lemma built_severity inc :
  built inc →
  _I_SEVERITY inc = ERROR ∨ _I_SEVERITY inc = WARNING ∨ _I_SEVERITY inc = MESSAGE.
Proof.
  intros [s_name i inc0 Hinit|inc0 i inc' _ Hset].
  - unfold Incident_init in Hinit.
    apply set_severity_ok in Hinit as (_ & -> & H). exact H.
  - apply set_severity_ok in Hset as (_ & -> & H). exact H.
Qed.

(** An incident built by [Incident(name, severity)] and changed through
    [set_severity] only has one of the three severities.  So the part of
    [__call__] that follows the formatting of the message, run on the
    message [s_message.format] returned, either raises the module error
    (exactly when the severity is the fatal one) or returns after emitting
    one event: the fall-through [Exception("Invalid severity level")] is
    never raised.  A rejected [set_severity] raises [ValueError]. *)
Theorem built_incident_call (inc : Incident) (Hbuilt : built inc) :
  (∀ s_message g,
     (_I_SEVERITY inc = ERROR ∧
      ∃ text, Incident_call inc s_message g = (Raise (RGError text), g)) ∨
     (_I_SEVERITY inc ≠ ERROR ∧
      ∃ ev, Incident_call inc s_message g = (Ok tt, emit ev g))) ∧
  (∀ i_severity,
     (∃ inc', set_severity inc i_severity = Ok inc' ∧ built inc' ∧
              _S_NAME inc' = _S_NAME inc ∧ _I_SEVERITY inc' = i_severity) ∨
     (i_severity ≠ ERROR ∧ i_severity ≠ WARNING ∧ i_severity ≠ MESSAGE ∧
      ∃ text, set_severity inc i_severity = Raise (ValueError text))).
Proof.
  split.
  - intros s_message g.
    destruct (built_severity inc Hbuilt) as [H|[H|H]].
    + left. split; [done|]. eexists. by apply incident_call_error.
    + right. split; [by rewrite H|]. eexists. by apply incident_call_warning.
    + right. split; [by rewrite H|]. eexists. by apply incident_call_message.
  - intros i.
    destruct (set_severity inc i) as [inc'|err] eqn:Hset.
    + left. exists inc'. split; [done|]. split; [by eapply built_set|].
      by apply set_severity_ok in Hset as (? & ? & _).
    + right. unfold set_severity in Hset.
      case_bool_decide as Hin; [discriminate|]. injection Hset as <-.
      repeat split; [intros ->; apply Hin..|by eexists];
        unfold ERROR, WARNING, MESSAGE; set_solver.
Qed.

Lemma built_incident_call_witness :
  ∃ ev, Incident_call {| _S_NAME := "Wildcard"; _I_SEVERITY := MESSAGE |} wildcard_text
          (module_globals Fixtures.parse_k None)
        = (Ok tt, emit ev (module_globals Fixtures.parse_k None)).
Proof.
  assert (Hbuilt : built {| _S_NAME := "Wildcard"; _I_SEVERITY := MESSAGE |}).
  { apply (built_init "Wildcard" MESSAGE). reflexivity. }
  destruct (built_incident_call _ Hbuilt) as [Hcall _].
  destruct (Hcall wildcard_text (module_globals Fixtures.parse_k None))
    as [[Hsev _]|[_ Hev]]; [discriminate|exact Hev].
Defined.

(** ** Discovery: which directories are searched *)

Lemma warn_files_events os paths g :
  warn_files os paths g = (Ok tt, emit_all (file_warnings os paths) g).
Proof.
  revert g. induction paths as [|p paths IH]; intros g.
  - by rewrite emit_all_nil.
  - cbn [warn_files]. unfold bind, warn, modify, ret, file_warnings.
    rewrite filter_cons. destruct (is_file os p) eqn:Hp.
    + rewrite decide_True by done. rewrite IH, emit_is_emit_all, emit_all_app.
      reflexivity.
    + rewrite decide_False by done. apply IH.
Qed.

(** ** The flattener: what every entry looks like *)

(** Induction over values, through the lists and dicts they nest. *)
Lemma pyval_nested_ind (P : pyval → Prop) :
  P PNone → (∀ b, P (PBool b)) → (∀ n, P (PInt n)) → (∀ bits, P (PFloat bits)) →
  (∀ s, P (PStr s)) →
  (∀ items, Forall P items → P (PList items)) →
  (∀ kvs, Forall (fun kv => P (snd kv)) kvs → P (PDict kvs)) →
  ∀ v, P v.
Proof.
  intros HNone HBool HInt HFloat HStr HList HDict.
  fix IH 1. intros [ |b|n|bits|s|items|kvs].
  - exact HNone.
  - apply HBool.
  - apply HInt.
  - apply HFloat.
  - apply HStr.
  - apply HList.
    induction items as [|item items IHitems]; constructor; [apply IH|exact IHitems].
  - apply HDict.
    induction kvs as [|[k v] kvs IHkvs]; constructor; [apply IH|exact IHkvs].
Qed.

Lemma string_app_assoc (s1 s2 s3 : string) : (s1 +:+ s2) +:+ s3 = s1 +:+ (s2 +:+ s3).
Proof.
  induction s1 as [|c s1 IH]; [done|].
  change (String c ((s1 +:+ s2) +:+ s3) = String c (s1 +:+ (s2 +:+ s3))).
  by f_equal.
Qed.

Lemma string_app_nil_r (s : string) : s +:+ "" = s.
Proof.
  induction s as [|c s IH]; [done|].
  change (String c (s +:+ "") = String c s). by f_equal.
Qed.

Lemma new_key_app s_prefix s_key : new_key s_prefix s_key = s_prefix +:+ s_key.
Proof. by destruct s_prefix. Qed.

(** What every entry of a flattened structure looks like. *)
Lemma d_flatten_entries (src : string) (data : pyval) :
  ∀ s_prefix k value label,
    d_flatten data src s_prefix !! k = Some (value, label) →
    label = src ∧ is_dict value = false ∧ ∃ rest, k = s_prefix +:+ rest.
Proof.
  induction data as [ | | | | |items IHitems|kvs IHkvs] using pyval_nested_ind;
    intros s_prefix k value label; try (simpl; by rewrite lookup_empty).
  - rewrite d_flatten_list.
    assert (Hloop : ∀ i acc,
      (∀ k v l, acc !! k = Some (v, l) →
                l = src ∧ is_dict v = false ∧ ∃ rest, k = s_prefix +:+ rest) →
      ∀ k v l, flatten_enumerate src s_prefix items i acc !! k = Some (v, l) →
               l = src ∧ is_dict v = false ∧ ∃ rest, k = s_prefix +:+ rest).
    { induction IHitems as [|item items Hitem _ IHloop]; intros i acc Hacc; [done|].
      simpl. apply IHloop. intros k0 v0 l0 Hk0.
      apply lookup_union_Some_raw in Hk0 as [Hk0|[_ Hk0]]; [|by eapply Hacc].
      apply Hitem in Hk0 as (-> & Hleaf & rest & ->).
      split; [done|]. split; [done|].
      eexists. by rewrite !string_app_assoc. }
    apply Hloop. intros k0 v0 l0. by rewrite lookup_empty.
  - rewrite d_flatten_dict.
    assert (Hloop : ∀ acc,
      (∀ k v l, acc !! k = Some (v, l) →
                l = src ∧ is_dict v = false ∧ ∃ rest, k = s_prefix +:+ rest) →
      ∀ k v l, flatten_items src s_prefix kvs acc !! k = Some (v, l) →
               l = src ∧ is_dict v = false ∧ ∃ rest, k = s_prefix +:+ rest).
    { induction IHkvs as [|[s_key val] kvs Hval _ IHloop]; intros acc Hacc; [done|].
      simpl. fold (new_key s_prefix s_key). apply IHloop. intros k0 v0 l0 Hk0.
      assert (Hleaf : is_dict val = false →
                <[new_key s_prefix s_key := (val, src)]> acc !! k0 = Some (v0, l0) →
                l0 = src ∧ is_dict v0 = false ∧ ∃ rest, k0 = s_prefix +:+ rest).
      { intros Hnd Hins. apply lookup_insert_Some in Hins as [[<- [= <- <-]]|[_ Hins]].
        - split; [done|]. split; [done|]. eexists. apply new_key_app.
        - by eapply Hacc. }
      destruct val; try (by apply Hleaf).
      apply lookup_union_Some_raw in Hk0 as [Hk0|[_ Hk0]]; [|by eapply Hacc].
      simpl in Hval. apply Hval in Hk0 as (-> & Hnd & rest & ->).
      split; [done|]. split; [done|].
      eexists. by rewrite new_key_app, !string_app_assoc. }
    apply Hloop. intros k0 v0 l0. by rewrite lookup_empty.
Qed.

Lemma dict_get_None kvs key :
  key ∉ kvs.*1 → dict_get kvs key = None.
Proof.
  induction kvs as [|[k v] kvs IH]; intros Hnot; simpl; [done|].
  destruct (String.eqb_spec k key) as [->|Hne].
  - exfalso. apply Hnot. simpl. apply list_elem_of_here.
  - apply IH. intros Hin. apply Hnot. simpl. by apply list_elem_of_further.
Qed.

Lemma flatten_items_flat src s_prefix kvs acc key :
  flat_dict kvs → NoDup kvs.*1 →
  flatten_items src s_prefix kvs acc !! (s_prefix +:+ key)
  = match dict_get kvs key with
    | Some value => Some (value, src)
    | None => acc !! (s_prefix +:+ key)
    end.
Proof.
  intros Hflat. revert acc.
  induction Hflat as [|[k v] kvs Hv _ IH]; intros acc Hnodup; [done|].
  simpl in Hnodup. apply NoDup_cons in Hnodup as [Hnotin Hnodup].
  assert (Hstep : flatten_items src s_prefix kvs
                    (<[new_key s_prefix k := (v, src)]> acc) !! (s_prefix +:+ key)
                  = match dict_get ((k, v) :: kvs) key with
                    | Some value => Some (value, src)
                    | None => acc !! (s_prefix +:+ key)
                    end).
  { rewrite IH by done. rewrite new_key_app. cbn [dict_get].
    destruct (String.eqb_spec k key) as [->|Hne].
    - rewrite dict_get_None by done. apply lookup_insert_eq.
    - destruct (dict_get kvs key); [done|].
      apply lookup_insert_ne. intros Heq. by apply (inj (String.app s_prefix)) in Heq. }
  simpl in Hv. destruct v; try discriminate; exact Hstep.
Qed.

(** Flattening a map that is already flat (no value is a dict, the keys
    are distinct) keeps every key, joined to the prefix, with its value and
    the source label, and adds no other key. *)
Theorem flatten_flat_dict (src s_prefix : string) (kvs : list (string * pyval))
    (Hflat : flat_dict kvs) (Hnodup : NoDup kvs.*1) :
  (∀ key, d_flatten (PDict kvs) src s_prefix !! (s_prefix +:+ key)
          = (fun value => (value, src)) <$> dict_get kvs key) ∧
  (∀ k e, d_flatten (PDict kvs) src s_prefix !! k = Some e →
          ∃ key, k = s_prefix +:+ key ∧ dict_get kvs key = Some (fst e)).
Proof.
  assert (Hkeys : ∀ key, d_flatten (PDict kvs) src s_prefix !! (s_prefix +:+ key)
                         = (fun value => (value, src)) <$> dict_get kvs key).
  { intros key. rewrite d_flatten_dict, flatten_items_flat by done.
    destruct (dict_get kvs key); [done|]. by rewrite lookup_empty. }
  split; [exact Hkeys|].
  intros k [v l] Hk.
  destruct (d_flatten_entries src (PDict kvs) s_prefix k v l Hk) as (_ & _ & key & ->).
  exists key. split; [done|].
  rewrite Hkeys in Hk. destruct (dict_get kvs key); [|discriminate].
  simpl in Hk. by injection Hk as ->.
Qed.

Lemma flatten_flat_dict_witness :
  d_flatten (PDict [("x", PInt 1); ("y", PList [PStr "s"])]) "f" "" !! "y"
  = Some (PList [PStr "s"], "f").
Proof.
  assert (Hflat : flat_dict [("x", PInt 1); ("y", PList [PStr "s"])])
    by (repeat constructor).
  assert (Hnodup : NoDup [("x", PInt 1); ("y", PList [PStr "s"])].*1).
  { apply (bool_decide_unpack _). vm_compute. exact I. }
  destruct (flatten_flat_dict "f" "" _ Hflat Hnodup) as [Hkeys _].
  exact (Hkeys "y").
Defined.

(** Every entry of a flattened structure carries the source label it was
    flattened with, its value is not a dict (dicts are always dissolved
    into their items), and its key starts with the prefix. *)
Theorem flatten_entries (src : string) (data : pyval) :
  ∀ s_prefix k value label,
    d_flatten data src s_prefix !! k = Some (value, label) →
    label = src ∧ is_dict value = false ∧ ∃ rest, k = s_prefix +:+ rest.
Proof. exact (d_flatten_entries src data). Qed.

Lemma flatten_entries_witness :
  ∃ rest, "j.x" = "" +:+ rest.
Proof.
  destruct (flatten_entries "/d/CFG.json"
              (PDict [("k", PInt 1); ("j", PDict [("x", PBool true)])])
              "" "j.x" (PBool true) "/d/CFG.json")
    as (_ & _ & Hrest).
  - vm_compute. reflexivity.
  - exact Hrest.
Defined.

(** ** Eager load: which file a cached key comes from *)

Lemma load_files_emits files d_data g r g' :
  load_files files d_data g = (r, g') → ∃ evs, g' = emit_all evs g.
Proof.
  revert d_data g.
  induction files as [|[path ext] files IH]; intros d_data g H.
  - injection H as _ <-. exists []. by rewrite emit_all_nil.
  - rewrite load_files_cons in H.
    destruct (_D_PARSERS g !! _) as [x_parser|].
    + unfold bind, lift in H. destruct (x_parser path) as [data|err].
      * by apply IH in H.
      * injection H as _ <-. exists []. by rewrite emit_all_nil.
    + unfold bind in H.
      destruct (Incident_call _ _ g) as [[[]|err] g1] eqn:Hcall.
      * apply incident_call_ok in Hcall as [ev ->].
        apply IH in H as [evs ->]. eexists.
        by rewrite emit_is_emit_all, emit_all_app.
      * injection H as _ <-. unfold Incident_call in Hcall.
        exists []. rewrite emit_all_nil.
        destruct (_ =? ERROR)%Z; [by injection Hcall|].
        destruct (_ =? WARNING)%Z; [discriminate|].
        destruct (_ =? MESSAGE)%Z; [discriminate|by injection Hcall].
Qed.

Lemma load_files_app files1 files2 d_data g :
  load_files (files1 ++ files2) d_data g
  = (let* d1 := load_files files1 d_data in load_files files2 d1) g.
Proof.
  revert d_data g.
  induction files1 as [|[path ext] files1 IH]; intros d_data g; [done|].
  rewrite <- app_comm_cons. unfold bind at 1.
  rewrite !load_files_cons.
  destruct (_D_PARSERS g !! _) as [x_parser|].
  - unfold bind, lift. destruct (x_parser path) as [data|err]; [|done].
    rewrite IH. reflexivity.
  - unfold bind.
    destruct (Incident_call _ _ g) as [[[]|err] g1]; [|done].
    rewrite IH. reflexivity.
Qed.

(** Files that do not define a key leave the entry of the key alone. *)
Lemma load_files_keeps files k :
  ∀ d_data g d' g',
    load_files files d_data g = (Ok d', g') →
    (∀ f x_parser data,
       f ∈ files →
       _D_PARSERS g !! PyStr.lower (PyStr.rpartition_tail PyStr.dot (fst f))
         = Some x_parser →
       x_parser (fst f) = Ok data →
       d_flatten data (fst f) "" !! k = None) →
    d' !! k = d_data !! k.
Proof.
  induction files as [|[path ext] files IH]; intros d_data g d' g' H Hnone.
  - by injection H as <- _.
  - rewrite load_files_cons in H.
    destruct (_D_PARSERS g !! _) as [x_parser|] eqn:Hlook.
    + unfold bind, lift in H.
      destruct (x_parser path) as [data|err] eqn:Hparse; [|discriminate].
      apply IH in H.
      * rewrite H. apply lookup_union_r.
        apply (Hnone (path, ext) x_parser data); [apply list_elem_of_here|done..].
      * intros f p dat Hin. apply Hnone. by apply list_elem_of_further.
    + apply bind_ok in H as ([] & g1 & Hcall & H).
      apply incident_call_ok in Hcall as [ev ->].
      apply IH in H; [done|].
      intros f p dat Hin. apply (Hnone f p dat). by apply list_elem_of_further.
Qed.

(** What a constructor that returned has done. *)
Lemma init_loaded os s_category src g self g' :
  __init__ os s_category src true g = (Ok self, g') →
  ∃ g1 d_data,
    _D_PARSERS g1 = _D_PARSERS g ∧
    load_files (rev (discovered os (blank s_category src))) ∅ g1 = (Ok d_data, g') ∧
    self = set_data (fun _ => d_data) (blank s_category src).
Proof.
  unfold __init__. intros H.
  apply bind_ok in H as ([] & g0 & Hcheck & H).
  assert (Hg0 : _D_PARSERS g0 = _D_PARSERS g).
  { destruct (PyStr.contains PyStr.star s_category).
    - unfold bind, read in Hcheck. by apply incident_call_ok in Hcheck as [ev ->].
    - by injection Hcheck as <-. }
  simpl in H. fold (blank s_category src) in H.
  apply bind_ok in H as (files & g1 & Hfiles & H).
  destruct (get_all_source_files_emits os (blank s_category src) g0) as [evs Hdisc].
  rewrite Hdisc in Hfiles. injection Hfiles as <- <-.
  apply bind_ok in H as (d_data & g2 & Hload & H).
  unfold ret in H. injection H as <- <-.
  exists (emit_all evs g0), d_data. done.
Qed.

(** The eager cache gives a key to the first discovered file that defines
    it: when the constructor returns, a key defined by a discovered file
    and by no file discovered before it is cached with that file's value
    and that file's path as label, whatever the files discovered later
    hold. *)
Theorem eager_first_defining_file_wins
    (os : OS) (s_category : string) (src : source) (g : globals)
    (self : ResourceManager) (g' : globals)
    (before after : list (string * string)) (path ext : string)
    (x_parser : string → result pyval) (data : pyval) (k : string) (e : pyval * string)
    (Hfiles : discovered os (blank s_category src) = before ++ (path, ext) :: after)
    (Hinit : __init__ os s_category src true g = (Ok self, g'))
    (Hlook : _D_PARSERS g !! PyStr.lower (PyStr.rpartition_tail PyStr.dot path)
             = Some x_parser)
    (Hparse : x_parser path = Ok data)
    (Hdef : d_flatten data path "" !! k = Some e)
    (Hbefore : ∀ f p dat,
       f ∈ before →
       _D_PARSERS g !! PyStr.lower (PyStr.rpartition_tail PyStr.dot (fst f)) = Some p →
       p (fst f) = Ok dat →
       d_flatten dat (fst f) "" !! k = None) :
  _D_DATA self !! k = Some e ∧ snd e = path.
Proof.
  apply init_loaded in Hinit as (g1 & d_data & Hreg & Hload & ->).
  split; [|destruct e as [v l]; by apply d_flatten_entries in Hdef as [-> _]].
  rewrite Hfiles, rev_app_distr in Hload. simpl in Hload.
  rewrite <- app_assoc in Hload. simpl in Hload.
  rewrite load_files_app in Hload.
  apply bind_ok in Hload as (d1 & g2 & Hafter & Hload).
  apply load_files_emits in Hafter as [evs ->].
  rewrite load_files_cons in Hload.
  change (_D_PARSERS (emit_all evs g1)) with (_D_PARSERS g1) in Hload.
  rewrite Hreg, Hlook in Hload. unfold bind, lift in Hload. rewrite Hparse in Hload.
  simpl. rewrite (load_files_keeps _ k _ _ _ _ Hload).
  - by apply lookup_union_Some_l.
  - intros f p dat Hin. change (_D_PARSERS (emit_all evs g1)) with (_D_PARSERS g1).
    rewrite Hreg. apply Hbefore. by apply elem_of_rev.
Qed.

Lemma eager_first_defining_file_wins_witness :
  ∃ self g',
    __init__ MoreFixtures.twin_dir "CFG" (SourcePaths ["/d"]) true MoreFixtures.twin_globals
      = (Ok self, g') ∧
    _D_DATA self !! "k" = Some (PInt 1, "/d/CFG.json").
Proof.
  destruct (__init__ MoreFixtures.twin_dir "CFG" (SourcePaths ["/d"]) true
              MoreFixtures.twin_globals) as [[self|err] g'] eqn:Hinit;
    [|vm_compute in Hinit; discriminate].
  exists self, g'. split; [reflexivity|].
  apply (eager_first_defining_file_wins MoreFixtures.twin_dir "CFG" (SourcePaths ["/d"])
           MoreFixtures.twin_globals self g' [] [("/d/CFG.yaml", "yaml")]
           "/d/CFG.json" "json" MoreFixtures.parse_twin_json
           (PDict [("k", PInt 1); ("j", PDict [("x", PBool true)])]) "k"
           (PInt 1, "/d/CFG.json")).
  - reflexivity.
  - exact Hinit.
  - vm_compute. reflexivity.
  - reflexivity.
  - vm_compute. reflexivity.
  - intros f p dat Hin. by apply elem_of_nil in Hin.
Defined.




(** ** Single-key lookup: which file answers *)

Lemma lookup_warnings_registry g1 g2 files :
  _D_PARSERS g1 = _D_PARSERS g2 → lookup_warnings g1 files = lookup_warnings g2 files.
Proof.
  intros Hreg. induction files as [|[path ext] files IH]; [done|].
  simpl. rewrite Hreg, IH. reflexivity.
Qed.

(** Files passed by cost a warning each when they have no parser, and
    leave the segment list as it is. *)
Lemma probe_files_passes self s_resource s_first sa_rest before :
  ∀ rest g,
    Forall (passed_by g s_first) before →
    probe_files self s_resource (before ++ rest) (s_first :: sa_rest) g
    = probe_files self s_resource rest (s_first :: sa_rest)
        (emit_all (lookup_warnings g before) g).
Proof.
  induction before as [|[path ext] before IH]; intros rest g Hall.
  - simpl. by rewrite emit_all_nil.
  - apply Forall_cons in Hall as [Hf Hall]. unfold passed_by in Hf. simpl in Hf.
    rewrite <- app_comm_cons, probe_files_cons. cbn [lookup_warnings].
    destruct Hf as [Hnone|(x_parser & kvs & Hlook & Hparse & Hget)].
    + rewrite Hnone. unfold bind, warn, modify.
      rewrite (IH rest (emit (Warned (no_parser_text ext path)) g)) by exact Hall.
      rewrite emit_is_emit_all, emit_all_app. simpl.
      by rewrite (lookup_warnings_registry (emit_all [Warned (no_parser_text ext path)] g) g).
    + rewrite Hlook. unfold bind, lift. rewrite Hparse. simpl. rewrite Hget.
      by apply IH.
Qed.

Lemma get_all_source_files_events os self g :
  _get_all_source_files os self g
  = (Ok (discovered os self), emit_all (file_warnings os (source_dirs os self)) g).
Proof.
  unfold _get_all_source_files, _get_source_paths. fold (source_dirs os self).
  unfold bind. by rewrite warn_files_events.
Qed.

(** The answer of the single-key lookup, with its warnings. *)
Lemma lookup_answer
    (os : OS) (self : ResourceManager) (s_resource : string) (b_reload : bool)
    (g : globals) (before after : list (string * string)) (path ext : string)
    (x_parser : string → result pyval) (data value : pyval)
    (s_first : string) (sa_rest : list string)
    (Hov : _D_OVERRIDES self !! s_resource = None)
    (Hmiss : _D_DATA self !! s_resource = None ∨ b_reload = true)
    (Hstar : PyStr.contains PyStr.star s_resource = false)
    (Hsplit : PyStr.split PyStr.dot s_resource = s_first :: sa_rest)
    (Hfiles : discovered os self = before ++ (path, ext) :: after)
    (Hbefore : Forall (passed_by g s_first) before)
    (Hlook : _D_PARSERS g !! PyStr.lower ext = Some x_parser)
    (Hparse : x_parser path = Ok data)
    (Hfull : descend data (s_first :: sa_rest) = Ok (value, [])) :
  let g1 := emit_all (file_warnings os (source_dirs os self) ++ lookup_warnings g before) g in
  let self1 := set_data (insert s_resource (value, path)) self in
  _get_resource os self s_resource b_reload g = (Ok ((value, path), self1), g1) ∧
  get os self s_resource b_reload g = finish self1 value g1 ∧
  (_D_DATA self !! s_resource = None →
   info os self s_resource g = (Ok (path, self1), g1)).
Proof.
  intros g1 self1.
  assert (Hfresh :
    (let* files := _get_all_source_files os self in
     probe_files self s_resource files (s_first :: sa_rest)) g
    = (Ok ((value, path), self1), g1)).
  { unfold bind. rewrite get_all_source_files_events, Hfiles.
    rewrite probe_files_passes by exact Hbefore.
    rewrite (probe_files_full_match _ _ _ _ _ _ _ x_parser data value); [|done..].
    subst g1. rewrite emit_all_app.
    by rewrite (lookup_warnings_registry _ g). }
  assert (Hres : ∀ b, _D_DATA self !! s_resource = None ∨ b = true →
            _get_resource os self s_resource b g = (Ok ((value, path), self1), g1)).
  { intros b Hb. unfold _get_resource. rewrite Hov, Hstar, Hsplit.
    destruct Hb as [->| ->]; [done|]. by destruct (_D_DATA self !! s_resource). }
  split; [by apply Hres|]. split.
  - unfold get, finish. rewrite (bind_step _ _ _ _ _ (Hres b_reload Hmiss)).
    reflexivity.
  - intros Hnone.
    unfold info. rewrite (bind_step _ _ _ _ _ (Hres false (or_introl Hnone))).
    reflexivity.
Qed.

(** ** Reload and overrides *)

(** The probing loop uses the manager only to write the match into it. *)
Lemma probe_files_manager self self0 s_resource files sa_parts g :
  probe_files self s_resource files sa_parts g
  = match probe_files self0 s_resource files sa_parts g with
    | (Ok (e, _), g') => (Ok (e, set_data (insert s_resource e) self), g')
    | (Raise err, g') => (Raise err, g')
    end.
Proof.
  revert sa_parts g.
  induction files as [|[path ext] files IH]; intros sa_parts g; [done|].
  rewrite !probe_files_cons.
  destruct (_D_PARSERS g !! PyStr.lower ext) as [x_parser|].
  - unfold bind, lift.
    destruct (x_parser path) as [data|err]; [|done].
    destruct (descend data sa_parts) as [[reached [|s left]]|err]; [done| |done].
    apply IH.
  - unfold bind, warn, modify. apply IH.
Qed.

Lemma set_data_insert_delete self k (e : pyval * string) :
  set_data (insert k e) (set_data (delete k) self) = set_data (insert k e) self.
Proof. unfold set_data. simpl. by rewrite insert_delete_eq. Qed.

(** A lookup with [b_reload=True] of a key without override resolves as if
    the key had never been cached: it gives the same result or the same
    exception, with the same warnings, as a lookup (with either flag) on
    the manager without the cache entry, and so does [get].  When the
    lookup returns an entry, the manager it leaves is the given one with
    that entry written over whatever the cache held for the key, the same
    manager whether the cache entry was there or not. *)
Theorem reload_ignores_cache_entry
    (os : OS) (self : ResourceManager) (s_resource : string) (g : globals)
    (Hov : _D_OVERRIDES self !! s_resource = None) :
  ∀ b_reload,
    _get_resource os self s_resource true g
    = _get_resource os (set_data (delete s_resource) self) s_resource b_reload g ∧
    get os self s_resource true g
    = get os (set_data (delete s_resource) self) s_resource b_reload g ∧
    (∀ e self' g',
       _get_resource os self s_resource true g = (Ok (e, self'), g') →
       self' = set_data (insert s_resource e) self ∧
       self' = set_data (insert s_resource e) (set_data (delete s_resource) self) ∧
       _D_DATA self' !! s_resource = Some e).
Proof.
  assert (Hres : ∀ b,
    _get_resource os self s_resource true g
    = _get_resource os (set_data (delete s_resource) self) s_resource b g).
  { intros b. unfold _get_resource. simpl. rewrite Hov, lookup_delete_eq.
    assert (Hsame :
      (if PyStr.contains PyStr.star s_resource
       then raise (RGError "No wildcard search allowed yet!")
       else let* files := _get_all_source_files os self in
            probe_files self s_resource files (PyStr.split PyStr.dot s_resource)) g
      = (if PyStr.contains PyStr.star s_resource
         then raise (RGError "No wildcard search allowed yet!")
         else let* files := _get_all_source_files os (set_data (delete s_resource) self) in
              probe_files (set_data (delete s_resource) self) s_resource files
                (PyStr.split PyStr.dot s_resource)) g).
    { destruct (PyStr.contains PyStr.star s_resource); [done|].
      change (_get_all_source_files os (set_data (delete s_resource) self))
        with (_get_all_source_files os self).
      unfold bind.
      destruct (_get_all_source_files os self g) as [[files|err] g1]; [|done].
      rewrite (probe_files_manager (set_data (delete s_resource) self) self).
      rewrite (probe_files_manager self self) at 1.
      destruct (probe_files self s_resource files _ g1) as [[[e m]|err] g2]; [|done].
      by rewrite set_data_insert_delete. }
    by destruct (_D_DATA self !! s_resource). }
  intros b. split; [apply Hres|]. split.
  - unfold get, bind. by rewrite (Hres b).
  - intros e self' g' Hok.
    apply get_resource_result in Hok
      as [(Hsome & _)|[(_ & _ & Hflag & _)|(_ & -> & _)]].
    + by rewrite Hov in Hsome.
    + discriminate.
    + split; [done|]. split; [by rewrite set_data_insert_delete|].
      simpl. apply lookup_insert_eq.
Qed.

Lemma reload_ignores_cache_entry_witness :
  let stale := set_data (insert "a.x" (PInt 0, "/old/CFG.json")) Fixtures.lazy_manager in
  let g := module_globals Fixtures.parse_two None in
  _get_resource Fixtures.two_dirs stale "a.x" true g
  = (Ok ((PInt 1, "/d1/CFG.json"),
         set_data (insert "a.x" (PInt 1, "/d1/CFG.json")) Fixtures.lazy_manager), g).
Proof.
  intros stale g.
  destruct (reload_ignores_cache_entry Fixtures.two_dirs stale "a.x" g eq_refl false)
    as (-> & _ & _).
  vm_compute. reflexivity.
Defined.

(** [override] followed by [remove_override] of the same key leaves no
    override behind, also when the key was overridden before: overrides do
    not stack, the earlier one is not restored.  On a key that had no
    override the pair restores the manager itself, so every lookup resolves
    as before.  An override replaces the one before it. *)
Theorem override_remove_round_trip
    (self : ResourceManager) (s_resource : string) (value : pyval) :
  _D_OVERRIDES (remove_override (override self s_resource value) s_resource) !! s_resource
    = None ∧
  (∀ earlier,
     remove_override (override (override self s_resource earlier) s_resource value)
       s_resource
     = remove_override self s_resource) ∧
  (_D_OVERRIDES self !! s_resource = None →
   remove_override (override self s_resource value) s_resource = self) ∧
  (∀ earlier,
     override (override self s_resource earlier) s_resource value
     = override self s_resource value) ∧
  (∀ k, k ≠ s_resource →
     _D_OVERRIDES (remove_override (override self s_resource value) s_resource) !! k
     = _D_OVERRIDES self !! k).
Proof.
  assert (Hpair : ∀ m : ResourceManager,
    remove_override (override m s_resource value) s_resource
    = set_overrides (delete s_resource) m).
  { intros m. unfold remove_override. rewrite override_lookup.
    unfold override, set_overrides. simpl. by rewrite delete_insert_eq. }
  split; [apply remove_override_lookup|]. split; [|split; [|split]].
  - intros earlier. rewrite Hpair.
    unfold remove_override, override, set_overrides. simpl.
    rewrite delete_insert_eq.
    destruct (_D_OVERRIDES self !! s_resource) eqn:Hprev; [done|].
    rewrite delete_id by done. by destruct self.
  - intros Hnone. rewrite Hpair. unfold set_overrides.
    rewrite delete_id by done. by destruct self.
  - intros earlier. unfold override, set_overrides. simpl.
    by rewrite insert_insert_eq.
  - intros k Hne. rewrite Hpair. unfold set_overrides. simpl.
    by apply lookup_delete_ne.
Qed.

Lemma override_remove_round_trip_witness :
  remove_override (override Fixtures.lazy_manager "a.x" (PInt 7)) "a.x"
  = Fixtures.lazy_manager.
Proof.
  destruct (override_remove_round_trip Fixtures.lazy_manager "a.x" (PInt 7))
    as (_ & _ & Hback & _).
  apply Hback. reflexivity.
Defined.

(** ** The wrapper classes and the configuration of the module *)



(** The resolution emits warnings at most, whether it returns or raises. *)
Lemma get_resource_emits os self s_resource b_reload g r g' :
  _get_resource os self s_resource b_reload g = (r, g') →
  ∃ evs, g' = emit_all evs g.
Proof.
  unfold _get_resource. intros H.
  assert (Hsame : ∀ (x : (pyval * string) * ResourceManager),
            (ret x : M _) g = (r, g') → ∃ evs, g' = emit_all evs g).
  { intros x [= _ <-]. exists []. by rewrite emit_all_nil. }
  destruct (_D_OVERRIDES self !! s_resource) as [e0|]; [by eapply Hsame|].
  assert (Hfresh :
    (if PyStr.contains PyStr.star s_resource
     then raise (RGError "No wildcard search allowed yet!")
     else let* files := _get_all_source_files os self in
          probe_files self s_resource files (PyStr.split PyStr.dot s_resource)) g
    = (r, g') → ∃ evs, g' = emit_all evs g).
  { clear H. intros H.
    destruct (PyStr.contains PyStr.star s_resource).
    - injection H as _ <-. exists []. by rewrite emit_all_nil.
    - unfold bind in H. rewrite get_all_source_files_events in H.
      apply probe_files_result in H as [[evs ->] _].
      eexists. by rewrite emit_all_app. }
  destruct (_D_DATA self !! s_resource) as [e1|]; [destruct b_reload|];
    [by apply Hfresh|by eapply Hsame|by apply Hfresh].
Qed.




Lemma incident_call_emits inc s_message g r g' :
  Incident_call inc s_message g = (r, g') → ∃ evs, g' = emit_all evs g.
Proof.
  unfold Incident_call. intros H.
  destruct (_ =? ERROR)%Z; [injection H as _ <-; exists []; by rewrite emit_all_nil|].
  destruct (_ =? WARNING)%Z; [injection H as _ <-; by eexists [_]|].
  destruct (_ =? MESSAGE)%Z; [injection H as _ <-; by eexists [_]|].
  injection H as _ <-. exists []. by rewrite emit_all_nil.
Qed.

(** The constructor emits events at most, whether it returns or raises. *)
Lemma init_emits os s_category src b_load g r g' :
  __init__ os s_category src b_load g = (r, g') → ∃ evs, g' = emit_all evs g.
Proof.
  unfold __init__. intros H.
  assert (Hrest : ∀ g0 evs0, g0 = emit_all evs0 g →
    (if negb b_load then ret (blank s_category src)
     else let* files := _get_all_source_files os (blank s_category src) in
          let* d_data := load_files (rev files) (_D_DATA (blank s_category src)) in
          ret (set_data (fun _ => d_data) (blank s_category src))) g0 = (r, g') →
    ∃ evs, g' = emit_all evs g).
  { intros g0 evs0 -> Hr. destruct b_load; simpl in Hr.
    - unfold bind in Hr. rewrite get_all_source_files_events in Hr.
      destruct (load_files _ _ _) as [[d|err] g2] eqn:Hload;
        apply load_files_emits in Hload as [evs ->];
        injection Hr as _ <-; eexists; by rewrite !emit_all_app.
    - injection Hr as _ <-. by eexists. }
  destruct (PyStr.contains PyStr.star s_category).
  - unfold bind at 1 2, read in H.
    destruct (Incident_call _ _ g) as [[[]|err] g0] eqn:Hcall;
      apply incident_call_emits in Hcall as [evs0 ->].
    + by eapply Hrest.
    + injection H as _ <-. by eexists.
  - unfold bind at 1, ret at 1 in H. eapply (Hrest g []); [|exact H].
    by rewrite emit_all_nil.
Qed.

(** [get], [info] and the constructor never change the parser registry or
    an incident, whether they return or raise: only [register_parser]
    writes the registry, and it changes the entry of the given name
    alone. *)
Theorem lookups_keep_configuration (os : OS) (g : globals) :
  (∀ self s_resource b_reload r g',
     get os self s_resource b_reload g = (r, g') → same_config g g') ∧
  (∀ self s_resource r g',
     info os self s_resource g = (r, g') → same_config g g') ∧
  (∀ s_category src b_load r g',
     __init__ os s_category src b_load g = (r, g') → same_config g g') ∧
  (∀ s_format x_parser s_other,
     s_other ≠ s_format →
     _D_PARSERS (snd (register_parser s_format x_parser g)) !! s_other
     = _D_PARSERS g !! s_other).
Proof.
  assert (Hemit : ∀ evs, same_config g (emit_all evs g)) by done.
  split; [|split; [|split]].
  - intros self k b r g' H. unfold get, bind in H.
    destruct (_get_resource os self k b g) as [[[e m]|err] g1] eqn:Hres.
    + apply get_resource_emits in Hres as [evs ->].
      unfold wrap, bind, read, ret, modify, raise in H.
      destruct (_D_TYPES (emit_all evs g) !! _) as [cls|].
      * by injection H as _ <-.
      * destruct (type_of _); by injection H as _ <-.
    + injection H as _ <-. by apply get_resource_emits in Hres as [evs ->].
  - intros self k r g' H. unfold info, bind in H.
    destruct (_get_resource os self k false g) as [[[e m]|err] g1] eqn:Hres;
      injection H as _ <-; by apply get_resource_emits in Hres as [evs ->].
  - intros c src b r g' H. by apply init_emits in H as [evs ->].
  - intros s_format x_parser s_other Hne. by apply register_parser_other.
Qed.

Lemma lookups_keep_configuration_witness :
  same_config MoreFixtures.twin_globals
    (snd (get MoreFixtures.twin_dir MoreFixtures.twin_manager "k" false
            MoreFixtures.twin_globals)).
Proof.
  destruct (lookups_keep_configuration MoreFixtures.twin_dir MoreFixtures.twin_globals)
    as [Hget _].
  eapply Hget. apply surjective_pairing.
Defined.

(** ** The except hook *)

Lemma list_in_app x l1 l2 : list_in x (l1 ++ l2) = list_in x l1 || list_in x l2.
Proof. unfold list_in. apply existsb_app. Qed.

Lemma list_index_None x l : list_index x l = None ↔ list_in x l = false.
Proof.
  induction l as [|y l IH]; [done|].
  unfold list_in in *. simpl. rewrite (String.eqb_sym x y).
  destruct (String.eqb y x); simpl.
  - split; intros H; discriminate H.
  - rewrite <- IH. destruct (list_index x l); simpl; split; intros H;
      first [discriminate H|reflexivity].
Qed.

Lemma list_index_first x before after :
  Forall (fun y => y ≠ x) before →
  list_index x (before ++ x :: after) = Some (List.length before).
Proof.
  induction 1 as [|y before Hne _ IH]; simpl.
  - by rewrite String.eqb_refl.
  - apply String.eqb_neq in Hne. by rewrite Hne, IH.
Qed.

Lemma list_index_lt x l i : list_index x l = Some i → i < List.length l.
Proof.
  revert i. induction l as [|y l IH]; intros i; simpl; [done|].
  destruct (String.eqb y x); [intros [= <-]; lia|].
  destruct (list_index x l) as [j|]; [|done].
  intros [= <-]. specialize (IH j eq_refl). lia.
Qed.

(** When the trace passes through the module and the full trace is not
    asked for, the hook writes exactly one frame: the caller, that is the
    frame just before the first frame of the module, whatever the type of
    the exception and however deep the trace goes into the module; if the
    trace starts inside the module, that first frame is written. *)
Theorem hook_shows_the_caller
    (type_ : exc_type) (before after : list frame) (frame_mod : frame) (s_path : string)
    (Hmod : filename frame_mod = s_path)
    (Hbefore : Forall (fun f => filename f ≠ s_path) before) :
  RG_excepthook false type_ (before ++ frame_mod :: after) s_path
  = HookLimited (default frame_mod (last before)).
Proof.
  unfold RG_excepthook.
  rewrite map_app. simpl. rewrite Hmod.
  assert (Hin : list_in s_path (map filename before ++ s_path :: map filename after) = true).
  { rewrite list_in_app. unfold list_in at 2. simpl. rewrite String.eqb_refl.
    by rewrite orb_true_r. }
  rewrite Hin, andb_false_r. simpl.
  rewrite list_index_first by (by apply Forall_map).
  rewrite length_map.
  destruct before as [|f before _] using rev_ind; simpl.
  - reflexivity.
  - rewrite last_snoc, length_app. simpl.
    replace (Z.to_nat (Z.max (Z.of_nat (List.length before + 1) - 1) 0)) with (List.length before)
      by lia.
    rewrite <- app_assoc. simpl.
    by rewrite list_lookup_middle.
Qed.

Lemma hook_shows_the_caller_witness :
  RG_excepthook false ExcRGError
    [MoreFixtures.user_frame; MoreFixtures.call_frame; MoreFixtures.raise_frame]
    "ResourceGetter.py"
  = HookLimited MoreFixtures.user_frame.
Proof.
  apply (hook_shows_the_caller ExcRGError [MoreFixtures.user_frame]
           [MoreFixtures.raise_frame] MoreFixtures.call_frame "ResourceGetter.py").
  - reflexivity.
  - apply Forall_cons. split; [intros H; discriminate H|by apply Forall_nil].
Defined.

(** The hook itself raises [ValueError] exactly when the full trace is not
    asked for, the exception is not [RGError] and no frame of the trace is
    in the module: [list.index] does not find the module path.  It hands
    over to the default hook exactly when the full trace is asked for or an
    [RGError] does not pass through the module.  The generator handed to
    [next] is never exhausted. *)
Theorem hook_outcomes
    (SHOW_FULL_STACKTRACE : bool) (type_ : exc_type) (tb_list : list frame)
    (s_path : string) :
  let outcome := RG_excepthook SHOW_FULL_STACKTRACE type_ tb_list s_path in
  let in_module := list_in s_path (map filename tb_list) in
  (outcome = HookValueError ↔
   SHOW_FULL_STACKTRACE = false ∧ is_RGError type_ = false ∧ in_module = false) ∧
  (outcome = HookDefault ↔
   SHOW_FULL_STACKTRACE = true ∨ is_RGError type_ = true ∧ in_module = false) ∧
  outcome ≠ HookStopIteration.
Proof.
  cbv zeta. unfold RG_excepthook.
  destruct (list_in s_path (map filename tb_list)) eqn:Hin;
    destruct SHOW_FULL_STACKTRACE, (is_RGError type_); simpl;
    try (split; [|split]; [split; [done|intros (? & ? & ?); done]
                          |split; [auto|done]
                          |done]).
  - destruct (list_index s_path (map filename tb_list)) as [i|] eqn:Hidx.
    + pose proof (list_index_lt _ _ _ Hidx) as Hlt. rewrite length_map in Hlt.
      destruct (tb_list !! Z.to_nat (Z.max (Z.of_nat i - 1) 0)) as [f|] eqn:Hf.
      * split; [|split]; [split; [done|intros (? & ? & ?); done]
                         |split; [done|intros [?|[? ?]]; done]|done].
      * apply lookup_ge_None in Hf. lia.
    + apply list_index_None in Hidx. congruence.
  - destruct (list_index s_path (map filename tb_list)) as [i|] eqn:Hidx.
    + pose proof (list_index_lt _ _ _ Hidx) as Hlt. rewrite length_map in Hlt.
      destruct (tb_list !! Z.to_nat (Z.max (Z.of_nat i - 1) 0)) as [f|] eqn:Hf.
      * split; [|split]; [split; [done|intros (? & ? & ?); done]
                         |split; [done|intros [?|[? ?]]; done]|done].
      * apply lookup_ge_None in Hf. lia.
    + apply list_index_None in Hidx. congruence.
  - destruct (list_index s_path (map filename tb_list)) as [i|] eqn:Hidx.
    + apply list_index_lt in Hidx as Hlt.
      assert (list_index s_path (map filename tb_list) = None)
        by (by apply list_index_None).
      congruence.
    + split; [|split]; [done|split; [done|intros [?|[? ?]]; done]|done].
Qed.

(** ** The eager cache and the single-key lookup agree on plain keys *)

Lemma plain_keys_dict kvs :
  plain_keys (PDict kvs) ↔
  NoDup kvs.*1 ∧ Forall (fun kv => dot_free (fst kv) ∧ plain_keys (snd kv)) kvs.
Proof.
  simpl. apply and_iff_compat_l.
  induction kvs as [|[k v] kvs IH]; [by split; [constructor|]|].
  rewrite Forall_cons. simpl. rewrite IH. tauto.
Qed.

Lemma split_cons_dot s :
  PyStr.split PyStr.dot (String PyStr.dot s) = "" :: PyStr.split PyStr.dot s.
Proof. reflexivity. Qed.

Lemma split_dot_free_app p t :
  dot_free p →
  PyStr.split PyStr.dot (p +:+ "." +:+ t) = p :: PyStr.split PyStr.dot t.
Proof.
  unfold dot_free. induction p as [|c p IH]; intros Hfree; [done|].
  cbn [PyStr.contains] in Hfree. rewrite Ascii.eqb_sym in Hfree.
  change (String c p +:+ "." +:+ t) with (String c (p +:+ "." +:+ t)).
  cbn [PyStr.split].
  destruct (Ascii.eqb c PyStr.dot); [discriminate Hfree|].
  by rewrite IH.
Qed.

Lemma split_dot_free p : dot_free p → PyStr.split PyStr.dot p = [p].
Proof.
  unfold dot_free. induction p as [|c p IH]; intros Hfree; [done|].
  cbn [PyStr.contains] in Hfree. rewrite Ascii.eqb_sym in Hfree.
  cbn [PyStr.split].
  destruct (Ascii.eqb c PyStr.dot); [discriminate Hfree|].
  by rewrite IH.
Qed.

Lemma split_segments_dot_free s : Forall dot_free (PyStr.split PyStr.dot s).
Proof.
  induction s as [|c s IH]; [by repeat constructor|].
  cbn [PyStr.split].
  destruct (Ascii.eqb c PyStr.dot) eqn:Hc.
  - by constructor.
  - pose proof (split_nonempty PyStr.dot s) as Hne.
    destruct (PyStr.split PyStr.dot s) as [|w ws]; [done|].
    apply Forall_cons in IH as [Hw Hws]. constructor; [|done].
    unfold dot_free in *. cbn [PyStr.contains].
    by rewrite Ascii.eqb_sym, Hc.
Qed.

Lemma join_cons p q rest :
  str_join "." (p :: q :: rest) = p +:+ "." +:+ str_join "." (q :: rest).
Proof. reflexivity. Qed.

Lemma join_split s : str_join "." (PyStr.split PyStr.dot s) = s.
Proof.
  induction s as [|c s IH]; [done|].
  cbn [PyStr.split].
  pose proof (split_nonempty PyStr.dot s) as Hne.
  destruct (Ascii.eqb_spec c PyStr.dot) as [->|_].
  - destruct (PyStr.split PyStr.dot s) as [|w ws]; [done|].
    rewrite join_cons, IH. reflexivity.
  - destruct (PyStr.split PyStr.dot s) as [|w ws]; [done|].
    destruct ws as [|w' ws].
    + simpl in *. by rewrite IH.
    + rewrite join_cons. rewrite join_cons in IH. by rewrite <- IH.
Qed.

Lemma split_join parts :
  parts ≠ [] → Forall dot_free parts →
  PyStr.split PyStr.dot (str_join "." parts) = parts.
Proof.
  intros Hne Hall. induction Hall as [|p parts Hp Hall IH]; [done|].
  destruct parts as [|q parts].
  - by apply split_dot_free.
  - rewrite join_cons, split_dot_free_app by done. by rewrite IH.
Qed.

Lemma dict_get_elem kvs k v :
  NoDup kvs.*1 → (k, v) ∈ kvs → dict_get kvs k = Some v.
Proof.
  induction kvs as [|[k0 v0] kvs IH]; intros Hnodup Hin.
  - by apply elem_of_nil in Hin.
  - simpl in Hnodup. apply NoDup_cons in Hnodup as [Hnotin Hnodup].
    apply elem_of_cons in Hin as [[= -> ->]|Hin]; simpl.
    + by rewrite String.eqb_refl.
    + destruct (String.eqb_spec k0 k) as [->|_]; [|by apply IH].
      exfalso. apply Hnotin. apply list_elem_of_fmap. by exists (k, v).
Qed.

Lemma dict_get_split kvs k v :
  dict_get kvs k = Some v → ∃ l1 l2, kvs = l1 ++ (k, v) :: l2.
Proof.
  induction kvs as [|[k0 v0] kvs IH]; [done|]. simpl.
  destruct (String.eqb_spec k0 k) as [->|_].
  - intros [= ->]. by exists [], kvs.
  - intros H. destruct (IH H) as (l1 & l2 & ->). by exists ((k0, v0) :: l1), l2.
Qed.

Lemma flatten_items_app src s_prefix l1 l2 acc :
  flatten_items src s_prefix (l1 ++ l2) acc
  = flatten_items src s_prefix l2 (flatten_items src s_prefix l1 acc).
Proof.
  revert acc. induction l1 as [|[k v] l1 IH]; intros acc; [done|].
  simpl. apply IH.
Qed.

(** Two keys that agree up to the first dot agree in their first segment. *)
Lemma first_segment_inj s_prefix k k' z tail :
  dot_free k → dot_free k' →
  tail = "" ∨ (∃ y, tail = "." +:+ y) →
  s_prefix +:+ k' +:+ "." +:+ z = s_prefix +:+ k +:+ tail →
  k' = k.
Proof.
  intros Hk Hk' Htail Heq.
  apply (inj (String.app s_prefix)) in Heq.
  apply (f_equal (PyStr.split PyStr.dot)) in Heq.
  rewrite split_dot_free_app in Heq by done.
  destruct Htail as [->|[y ->]].
  - rewrite string_app_nil_r, (split_dot_free k) in Heq by done. by injection Heq.
  - rewrite (split_dot_free_app k) in Heq by done. by injection Heq.
Qed.

Lemma leaf_key_differs s_prefix k k' tail :
  dot_free k → dot_free k' → k' ≠ k →
  tail = "" ∨ (∃ y, tail = "." +:+ y) →
  s_prefix +:+ k' ≠ s_prefix +:+ k +:+ tail.
Proof.
  intros Hk Hk' Hne Htail Heq.
  apply (inj (String.app s_prefix)) in Heq.
  destruct Htail as [->|[y ->]].
  - rewrite string_app_nil_r in Heq. by apply Hne.
  - apply (f_equal (PyStr.split PyStr.dot)) in Heq.
    rewrite (split_dot_free k'), (split_dot_free_app k) in Heq by done.
    injection Heq as _ Heq. symmetry in Heq. by apply split_nonempty in Heq.
Qed.

(** Items with another first segment do not write the key. *)
Lemma flatten_items_other src s_prefix k tail items :
  dot_free k →
  tail = "" ∨ (∃ y, tail = "." +:+ y) →
  Forall (fun kv => dot_free (fst kv) ∧ fst kv ≠ k) items →
  ∀ acc, flatten_items src s_prefix items acc !! (s_prefix +:+ k +:+ tail)
         = acc !! (s_prefix +:+ k +:+ tail).
Proof.
  intros Hk Htail.
  induction 1 as [|[k' v'] items [Hk' Hne] _ IH]; intros acc; [done|].
  simpl in Hk', Hne. simpl. fold (new_key s_prefix k'). rewrite IH.
  assert (Hleaf : <[new_key s_prefix k' := (v', src)]> acc !! (s_prefix +:+ k +:+ tail)
                  = acc !! (s_prefix +:+ k +:+ tail)).
  { apply lookup_insert_ne. rewrite new_key_app. by apply leaf_key_differs. }
  destruct v'; try exact Hleaf.
  apply lookup_union_r.
  destruct (d_flatten (PDict kvs) src (new_key s_prefix k' +:+ ".") !!
              (s_prefix +:+ k +:+ tail)) as [[v l]|] eqn:Hin; [|done].
  apply d_flatten_entries in Hin as (_ & _ & z & Hz).
  rewrite new_key_app, !string_app_assoc in Hz. symmetry in Hz.
  by apply first_segment_inj in Hz.
Qed.

(** From the cache to the lookup: a key of the flattened dict is the join
    of segments along which the descent reaches the value. *)
Lemma flatten_to_descend src data :
  plain_keys data →
  ∀ kvs, data = PDict kvs →
  ∀ s_prefix K v l,
    d_flatten data src s_prefix !! K = Some (v, l) →
    ∃ parts, parts ≠ [] ∧ Forall dot_free parts ∧
             K = s_prefix +:+ str_join "." parts ∧
             descend data parts = Ok (v, []).
Proof.
  induction data as [ | | | | | |kvs0 IHkvs] using pyval_nested_ind;
    intros Hplain kvs Hdata; try discriminate.
  injection Hdata as <-. intros s_prefix K v l.
  apply plain_keys_dict in Hplain as [Hnodup Hall].
  rewrite d_flatten_dict.
  assert (Hloop : ∀ items,
    Forall (fun kv => kv ∈ kvs0) items →
    ∀ acc,
      (∀ K v l, acc !! K = Some (v, l) →
         ∃ parts, parts ≠ [] ∧ Forall dot_free parts ∧
                  K = s_prefix +:+ str_join "." parts ∧
                  descend (PDict kvs0) parts = Ok (v, [])) →
      ∀ K v l, flatten_items src s_prefix items acc !! K = Some (v, l) →
        ∃ parts, parts ≠ [] ∧ Forall dot_free parts ∧
                 K = s_prefix +:+ str_join "." parts ∧
                 descend (PDict kvs0) parts = Ok (v, [])).
  { induction 1 as [|[k val] items Hin _ IHloop]; intros acc Hacc; [done|].
    simpl. fold (new_key s_prefix k). apply IHloop. intros K0 v0 l0 HK0.
    pose proof (dict_get_elem _ _ _ Hnodup Hin) as Hget.
    rewrite Forall_forall in Hall. destruct (Hall _ Hin) as [Hk Hval]. simpl in Hk, Hval.
    rewrite Forall_forall in IHkvs. pose proof (IHkvs _ Hin) as IHval. simpl in IHval.
    assert (Hleaf : <[new_key s_prefix k := (val, src)]> acc !! K0 = Some (v0, l0) →
              ∃ parts, parts ≠ [] ∧ Forall dot_free parts ∧
                       K0 = s_prefix +:+ str_join "." parts ∧
                       descend (PDict kvs0) parts = Ok (v0, [])).
    { intros Hins. apply lookup_insert_Some in Hins as [[<- [= <- <-]]|[_ Hins]];
        [|by eapply Hacc].
      exists [k]. split; [done|]. split; [by constructor|].
      split; [apply new_key_app|]. simpl. by rewrite Hget. }
    destruct val as [ | | | | | |sub]; try (by apply Hleaf).
    apply lookup_union_Some_raw in HK0 as [HK0|[_ HK0]]; [|by eapply Hacc].
    destruct (IHval Hval sub eq_refl _ _ _ _ HK0) as (parts & Hne & Hfree & -> & Hdesc).
    exists (k :: parts). split; [done|]. split; [by constructor|]. split.
    - destruct parts as [|q parts]; [done|].
      rewrite join_cons, new_key_app, !string_app_assoc. reflexivity.
    - simpl. by rewrite Hget. }
  apply Hloop.
  - by apply Forall_forall.
  - intros K0 v0 l0. by rewrite lookup_empty.
Qed.

(** From the lookup to the cache: a value the descent reaches that is not
    a dict is cached under the joined segments. *)
Lemma descend_to_flatten src parts :
  ∀ kvs s_prefix v,
    plain_keys (PDict kvs) →
    parts ≠ [] →
    descend (PDict kvs) parts = Ok (v, []) →
    is_dict v = false →
    d_flatten (PDict kvs) src s_prefix !! (s_prefix +:+ str_join "." parts)
    = Some (v, src).
Proof.
  induction parts as [|k rest IH]; intros kvs s_prefix v Hplain Hne Hdesc Hleaf; [done|].
  simpl in Hdesc.
  destruct (dict_get kvs k) as [val|] eqn:Hget; [|discriminate].
  pose proof Hplain as Hplain'.
  apply plain_keys_dict in Hplain' as [Hnodup Hall].
  destruct (dict_get_split _ _ _ Hget) as (l1 & l2 & ->).
  rewrite fmap_app in Hnodup. apply NoDup_app in Hnodup as (_ & _ & Hnodup2).
  simpl in Hnodup2. apply NoDup_cons in Hnodup2 as [Hnotin _].
  apply Forall_app in Hall as [_ Hall2].
  apply Forall_cons in Hall2 as [[Hk Hval] Hall2]. simpl in Hk, Hval.
  assert (Hothers : Forall (fun kv => dot_free (fst kv) ∧ fst kv ≠ k) l2).
  { apply Forall_forall. intros [k' v'] Hin. rewrite Forall_forall in Hall2.
    split; [by apply (Hall2 (k', v'))|]. simpl. intros ->.
    apply Hnotin. apply list_elem_of_fmap. by exists (k, v'). }
  rewrite d_flatten_dict, flatten_items_app.
  cbn [flatten_items]. fold (new_key s_prefix k).
  destruct rest as [|r rest].
  - injection Hdesc as ->.
    change (str_join "." [k]) with k.
    pose proof (flatten_items_other src s_prefix k "" l2 Hk (or_introl eq_refl) Hothers)
      as Hoth.
    rewrite string_app_nil_r in Hoth. rewrite Hoth.
    destruct v; try discriminate; rewrite new_key_app; apply lookup_insert_eq.
  - destruct val as [ | | | | | |sub]; try discriminate.
    rewrite join_cons.
    rewrite flatten_items_other; [|done|right; by eexists|done].
    apply lookup_union_Some_l.
    specialize (IH sub (new_key s_prefix k +:+ ".") v Hval ltac:(done) Hdesc Hleaf).
    rewrite new_key_app, !string_app_assoc in IH.
    by rewrite new_key_app, !string_app_assoc.
Qed.

(** The two directions together, for a key as the caller writes it. *)
Lemma flatten_iff_descend
    (src : string) (kvs : list (string * pyval)) (s_resource : string) (value : pyval)
    (Hplain : plain_keys (PDict kvs)) :
  d_flatten (PDict kvs) src "" !! s_resource = Some (value, src) ↔
  descend (PDict kvs) (PyStr.split PyStr.dot s_resource) = Ok (value, []) ∧
  is_dict value = false.
Proof.
  split.
  - intros Hflat.
    destruct (d_flatten_entries _ _ _ _ _ _ Hflat) as (_ & Hleaf & _).
    destruct (flatten_to_descend src _ Hplain kvs eq_refl _ _ _ _ Hflat)
      as (parts & Hne & Hfree & -> & Hdesc).
    split; [|done].
    change ("" +:+ str_join "." parts) with (str_join "." parts).
    by rewrite split_join.
  - intros [Hdesc Hleaf].
    pose proof (descend_to_flatten src _ kvs "" value Hplain
                  (split_nonempty PyStr.dot s_resource) Hdesc Hleaf) as Hflat.
    by rewrite join_split in Hflat.
Qed.

(** On a parsed dict with plain keys (distinct, without dots, in every
    nested dict) the eager cache and the single-key lookup agree: the
    flattened map holds a value under a key exactly when the descent along
    the segments of the key consumes all of them and ends at that value,
    the value not being a dict.  So a key served from the cache filled at
    construction is the key a later lookup in the same file would find. *)
Theorem eager_cache_agrees_with_lookup
    (src : string) (kvs : list (string * pyval)) (s_resource : string) (value : pyval)
    (Hplain : plain_keys (PDict kvs)) :
  d_flatten (PDict kvs) src "" !! s_resource = Some (value, src) ↔
  descend (PDict kvs) (PyStr.split PyStr.dot s_resource) = Ok (value, []) ∧
  is_dict value = false.
Proof. exact (flatten_iff_descend src kvs s_resource value Hplain). Qed.

Lemma eager_cache_agrees_with_lookup_witness :
  d_flatten (PDict [("k", PInt 1); ("j", PDict [("x", PBool true)])]) "/d/CFG.json" ""
    !! "j.x" = Some (PBool true, "/d/CFG.json").
Proof.
  apply eager_cache_agrees_with_lookup.
  - split; [apply (bool_decide_unpack _); vm_compute; exact I|].
    repeat split; apply (bool_decide_unpack _); vm_compute; exact I.
  - split; reflexivity.
Defined.

(** ** Construction followed by a reload *)

Lemma discovered_extension os self f :
  f ∈ discovered os self → snd f = PyStr.rpartition_tail PyStr.dot (fst f).
Proof.
  unfold discovered. intros Hin.
  apply list_elem_of_bind in Hin as (p & Hin & _).
  apply list_elem_of_bind in Hin as (file & Hin & _).
  apply list_elem_of_singleton in Hin. by subst f.
Qed.

(** A manager built eagerly over a single file with plain keys, asked to
    reload a key of its cache that contains no ['*'] while the file is
    unchanged, reads the file again, returns the cached entry and leaves
    the cache as it is.  (A cached key with a ['*'] in it cannot be
    reloaded: the lookup raises on the wildcard.) *)
Theorem reload_of_eager_key_is_stable
    (os : OS) (s_category : string) (src : source) (g : globals)
    (self : ResourceManager) (g' : globals) (path ext : string)
    (x_parser : string → result pyval) (kvs : list (string * pyval))
    (s_resource : string) (value : pyval) (label : string)
    (Hfiles : discovered os (blank s_category src) = [(path, ext)])
    (Hinit : __init__ os s_category src true g = (Ok self, g'))
    (Hlook : _D_PARSERS g !! PyStr.lower ext = Some x_parser)
    (Hparse : x_parser path = Ok (PDict kvs))
    (Hplain : plain_keys (PDict kvs))
    (Hstar : PyStr.contains PyStr.star s_resource = false)
    (Hcached : _D_DATA self !! s_resource = Some (value, label)) :
  label = path ∧
  ∃ evs, _get_resource os self s_resource true g' = (Ok ((value, path), self), emit_all evs g').
Proof.
  assert (Hext : ext = PyStr.rpartition_tail PyStr.dot path).
  { apply (discovered_extension os (blank s_category src) (path, ext)).
    rewrite Hfiles. apply list_elem_of_here. }
  pose proof (init_emits _ _ _ _ _ _ _ Hinit) as [evs0 Hg'].
  apply init_loaded in Hinit as (g1 & d_data & Hreg & Hload & ->).
  remember (PDict kvs) as data eqn:Hdata.
  assert (Hd : d_data = d_flatten data path "").
  { rewrite Hfiles in Hload. cbn [rev app] in Hload.
    rewrite load_files_cons, Hreg, <- Hext, Hlook in Hload.
    unfold bind, lift in Hload. rewrite Hparse in Hload.
    cbn [load_files] in Hload. unfold ret in Hload. injection Hload as <- _.
    apply (right_id_L ∅ (∪)). }
  subst d_data. cbn [_D_DATA set_data] in Hcached.
  destruct (d_flatten_entries _ _ _ _ _ _ Hcached) as (-> & _ & _).
  split; [done|].
  pose proof Hcached as Hflat.
  rewrite Hdata in Hcached.
  apply flatten_iff_descend in Hcached as [Hdesc Hleaf];
    [|by rewrite <- Hdata].
  rewrite <- Hdata in Hdesc.
  pose proof (split_nonempty PyStr.dot s_resource) as Hne.
  destruct (PyStr.split PyStr.dot s_resource) as [|s_first sa_rest] eqn:Hsplit; [done|].
  set (self := set_data (fun _ => d_flatten data path "") (blank s_category src)).
  destruct (lookup_answer os self s_resource true g'
              [] [] path ext x_parser data value s_first sa_rest)
    as [Hres _]; try done.
  - by right.
  - rewrite Hg'. exact Hlook.
  - assert (Hself : set_data (insert s_resource (value, path)) self = self).
    { subst self. unfold set_data, blank.
      cbn [_S_PREFIX _SOURCE _D_DATA _D_OVERRIDES _XAA_TRANSFORMERS].
      by rewrite insert_id. }
    eexists. rewrite Hres, Hself. reflexivity.
Qed.

Lemma reload_of_eager_key_is_stable_witness :
  ∃ self g' evs,
    __init__ Fixtures.one_dir "CFG" (SourcePaths ["/d"]) true
      (module_globals Fixtures.parse_leaf None) = (Ok self, g') ∧
    _get_resource Fixtures.one_dir self "a" true g'
    = (Ok ((PInt 5, "/d/CFG.json"), self), emit_all evs g').
Proof.
  destruct (__init__ Fixtures.one_dir "CFG" (SourcePaths ["/d"]) true
              (module_globals Fixtures.parse_leaf None)) as [[self|err] g'] eqn:Hinit;
    [|vm_compute in Hinit; discriminate].
  destruct (reload_of_eager_key_is_stable Fixtures.one_dir "CFG" (SourcePaths ["/d"])
              (module_globals Fixtures.parse_leaf None) self g' "/d/CFG.json" "json"
              Fixtures.parse_leaf [("a", PInt 5)] "a" (PInt 5) "/d/CFG.json")
    as [_ [evs Hres]].
  - reflexivity.
  - exact Hinit.
  - reflexivity.
  - reflexivity.
  - split; [apply (bool_decide_unpack _); vm_compute; exact I|].
    repeat split; reflexivity.
  - reflexivity.
  - vm_compute in Hinit. injection Hinit as <- _. vm_compute. reflexivity.
  - by exists self, g', evs.
Defined.

(** ** The flattener: a sequence as the value of a map key *)

(** The loop over the items adds to what was collected before it. *)
Lemma flatten_items_union src s_prefix kvs acc :
  flatten_items src s_prefix kvs acc = flatten_items src s_prefix kvs ∅ ∪ acc.
Proof.
  revert acc. induction kvs as [|[k v] kvs IH]; intros acc.
  - simpl. by rewrite (left_id_L ∅ (∪)).
  - cbn [flatten_items]. fold (new_key s_prefix k).
    rewrite IH. symmetry. rewrite IH. symmetry.
    rewrite <- (assoc_L (∪)). f_equal.
    destruct v; rewrite ?insert_empty, ?(right_id_L ∅ (∪));
      try apply insert_union_singleton_l; done.
Qed.

(** [C3], amended: in a map flattened with any prefix (so at any depth), an
    item whose value is a sequence contributes exactly one entry, which maps
    the key of the item, joined to the prefix, to the sequence itself with
    the source label: the flattened map is what the items after it
    contribute, laid over that one entry, laid over what the items before
    it contribute.  The entry is therefore in the result unless an item
    after it in the same map flattens to the same key; in data with
    distinct, dot-free keys it always is, and every entry of the result is
    then a value reached from the top through map keys alone, so that no
    element of the sequence has an entry of its own and no index is a
    segment.  For the map with this one item the result is that one
    entry.  At any depth of a structure with distinct, dot-free keys, a
    sequence reached from the top through the map keys [parts] is recorded
    whole under the keys joined by dots. *)
Theorem flatten_sequence_value_whole
    (src s_prefix s_key : string) (items : list pyval)
    (before after : list (string * pyval)) :
  let data := PDict (before ++ (s_key, PList items) :: after) in
  let key := new_key s_prefix s_key in
  d_flatten data src s_prefix
  = flatten_items src s_prefix after ∅
    ∪ ({[ key := (PList items, src) ]} ∪ flatten_items src s_prefix before ∅) ∧
  (flatten_items src s_prefix after ∅ !! key = None →
   d_flatten data src s_prefix !! key = Some (PList items, src)) ∧
  (plain_keys data →
   d_flatten data src s_prefix !! key = Some (PList items, src) ∧
   ∀ k value label,
     d_flatten data src s_prefix !! k = Some (value, label) →
     ∃ parts, parts ≠ [] ∧ Forall dot_free parts ∧
              k = s_prefix +:+ str_join "." parts ∧
              descend data parts = Ok (value, [])) ∧
  d_flatten (PDict [(s_key, PList items)]) src s_prefix
  = {[ key := (PList items, src) ]} ∧
  (∀ kvs parts,
     plain_keys (PDict kvs) → parts ≠ [] →
     descend (PDict kvs) parts = Ok (PList items, []) →
     d_flatten (PDict kvs) src s_prefix !! (s_prefix +:+ str_join "." parts)
     = Some (PList items, src)).
Proof.
  intros data key.
  assert (Hshape : d_flatten data src s_prefix
            = flatten_items src s_prefix after ∅
              ∪ ({[ key := (PList items, src) ]}
                 ∪ flatten_items src s_prefix before ∅)).
  { unfold data. rewrite d_flatten_dict, flatten_items_app.
    cbn [flatten_items]. fold (new_key s_prefix s_key). fold key.
    rewrite flatten_items_union. f_equal.
    apply insert_union_singleton_l. }
  split; [exact Hshape|]. split; [|split; [|split]].
  - intros Hfree. rewrite Hshape.
    rewrite lookup_union_r by done.
    apply lookup_union_Some_l, lookup_singleton_eq.
  - intros Hplain. split.
    + unfold key. rewrite new_key_app.
      change s_key with (str_join "." [s_key]) at 1.
      apply descend_to_flatten; [done|done| |done].
      cbn [descend]. apply plain_keys_dict in Hplain as [Hnodup _].
      rewrite (dict_get_elem _ s_key (PList items) Hnodup); [done|].
      apply elem_of_app. right. apply list_elem_of_here.
    + intros k value label Hk.
      by apply (flatten_to_descend src data Hplain _ eq_refl s_prefix k value label).
  - rewrite d_flatten_dict. cbn [flatten_items]. fold (new_key s_prefix s_key).
    by rewrite insert_empty.
  - intros kvs parts Hplain Hparts Hdesc. by apply descend_to_flatten.
Qed.

(** An item of an enclosing map that comes later and flattens to the same
    key replaces the entry of the sequence: keys with a dot can do that. *)
Example flatten_sequence_entry_replaced :
  d_flatten (PDict [("a", PDict [("b", PList [PInt 1; PInt 2])]); ("a.b", PInt 5)]) "f" ""
  = {[ "a.b" := (PInt 5, "f") ]}.
Proof. apply map_eq; intros k. vm_compute. reflexivity. Qed.

Lemma flatten_sequence_value_whole_witness :
  let data := PDict [("z", PInt 0); ("a", PList [PInt 10; PInt 20])] in
  plain_keys data ∧
  d_flatten data "f" ""
  = {[ "a" := (PList [PInt 10; PInt 20], "f"); "z" := (PInt 0, "f") ]} ∧
  d_flatten data "f" "" !! "a" = Some (PList [PInt 10; PInt 20], "f") ∧
  ∃ parts, descend data parts = Ok (PInt 0, []) ∧ "z" = str_join "." parts.
Proof.
  intros data.
  assert (Hplain : plain_keys data).
  { apply plain_keys_dict. split.
    - simpl. apply NoDup_cons. split.
      + intros Hin. apply list_elem_of_singleton in Hin. discriminate.
      + apply NoDup_singleton.
    - repeat constructor. }
  destruct (flatten_sequence_value_whole "f" "" "a" [PInt 10; PInt 20]
              [("z", PInt 0)] []) as (Hshape & Hfree & Hplain' & _ & _).
  destruct (Hplain' Hplain) as [Hlook Hentries].
  split; [exact Hplain|]. split; [|split; [exact Hlook|]].
  - unfold data. etransitivity; [apply Hshape|].
    apply map_eq; intros k. vm_compute. reflexivity.
  - destruct (Hentries "z" (PInt 0) "f") as (parts & _ & _ & Hkey & Hdesc).
    + vm_compute. reflexivity.
    + exists parts. split; [exact Hdesc|exact Hkey].
Defined.

(** ** What [get] returns *)





(** ** Overrides take precedence *)




(** ** The tables hold raw values; [get] works on them on every call *)




(** ** Single-key lookup: the answer, and what [get] makes of it *)



(** ** A missing key *)



(** ** Wrapped values: [expand] *)

Lemma replace_absent old new s :
  PyText.occurs old s = false → PyText.replace old new s = s.
Proof.
  destruct old as [|a old]; [by destruct s|].
  unfold PyText.replace.
  induction s as [|c s IH]; intros Hocc; [done|].
  cbn [PyText.occurs] in Hocc. apply orb_false_iff in Hocc as [Hhere Hrest].
  cbn [PyText.replace_scan]. rewrite Hhere. f_equal. by apply IH.
Qed.

Lemma expand_kwargs_app kwargs1 kwargs2 s_value :
  expand_kwargs (kwargs1 ++ kwargs2) s_value
  = expand_kwargs kwargs2 (expand_kwargs kwargs1 s_value).
Proof.
  revert s_value. induction kwargs1 as [|[key value] kwargs1 IH]; intros s; [done|].
  simpl. apply IH.
Qed.

Lemma expand_kwargs_absent kwargs s_value :
  Forall (fun kv => PyText.occurs ("{" +:+ fst kv +:+ "}") s_value = false) kwargs →
  expand_kwargs kwargs s_value = s_value.
Proof.
  induction 1 as [|[key value] kwargs Habsent _ IH]; [done|].
  cbn [expand_kwargs]. simpl in Habsent. by rewrite replace_absent.
Qed.

(** [expand] on a wrapped value that is neither a string nor a path
    returns the receiver itself and changes nothing, whatever the flags and
    keywords.  On a string, with both expansions switched off and no
    placeholder of a keyword occurring in it, it returns a new object of
    the same class with the same string; on a path, under the same
    conditions on its string, a new object of the same class built from
    that string. *)
Theorem expand_without_effect
    (osp : OSPath) (self : RGInstance) (kwargs : list (string * string)) (g : globals) :
  (∀ b_env_vars b_user value,
     inst_value self = WValue value → (∀ s, value ≠ PStr s) →
     expand osp self b_env_vars b_user kwargs g = (Ok self, g)) ∧
  (∀ s,
     inst_value self = WValue (PStr s) →
     Forall (fun kv => PyText.occurs ("{" +:+ fst kv +:+ "}") s = false) kwargs →
     expand osp self false false kwargs g
     = (Ok {| inst_id := next_id g; inst_class := inst_class self;
              inst_value := WValue (PStr s) |},
        bump_id g)) ∧
  (∀ s,
     inst_value self = WPath s →
     Forall (fun kv => PyText.occurs ("{" +:+ fst kv +:+ "}") s = false) kwargs →
     expand osp self false false kwargs g
     = (Ok {| inst_id := next_id g; inst_class := inst_class self;
              inst_value := WPath (path_str osp s) |},
        bump_id g)).
Proof.
  split; [|split].
  - intros bv bu value Hself Hnot. unfold expand. rewrite Hself.
    destruct value as [ | | | |s| | ]; try reflexivity.
    by destruct (Hnot s).
  - intros s Hs Habsent. unfold expand, expand_string. rewrite Hs.
    by rewrite expand_kwargs_absent.
  - intros s Hs Habsent. unfold expand, expand_string. rewrite Hs.
    by rewrite expand_kwargs_absent.
Qed.

Lemma expand_without_effect_witness :
  expand MoreFixtures.home_env
    {| inst_id := 3; inst_class := "RGstr"; inst_value := WValue (PStr "plain/{other}") |}
    false false [("name", "n")] MoreFixtures.twin_globals
  = (Ok {| inst_id := 0; inst_class := "RGstr";
           inst_value := WValue (PStr "plain/{other}") |},
     bump_id MoreFixtures.twin_globals) ∧
  expand MoreFixtures.home_env
    {| inst_id := 3; inst_class := "RGint"; inst_value := WValue (PInt 4) |}
    true true [("name", "n")] MoreFixtures.twin_globals
  = (Ok {| inst_id := 3; inst_class := "RGint"; inst_value := WValue (PInt 4) |},
     MoreFixtures.twin_globals).
Proof.
  split.
  - destruct (expand_without_effect MoreFixtures.home_env
                {| inst_id := 3; inst_class := "RGstr";
                   inst_value := WValue (PStr "plain/{other}") |}
                [("name", "n")] MoreFixtures.twin_globals) as (_ & Hsame & _).
    apply (Hsame "plain/{other}"); [reflexivity|].
    apply Forall_cons. split; [reflexivity|by apply Forall_nil].
  - destruct (expand_without_effect MoreFixtures.home_env
                {| inst_id := 3; inst_class := "RGint"; inst_value := WValue (PInt 4) |}
                [("name", "n")] MoreFixtures.twin_globals) as (Hself & _).
    apply (Hself true true (PInt 4)); [reflexivity|discriminate].
Defined.

(** On a wrapped string, the keywords of [expand] are substituted one after
    the other, in the order given, each in the result of the one before:
    expanding with two lists of keywords at once gives the string and the
    class of expanding with the first list and then expanding the result
    with the second list alone, both expansions switched off in that second
    call ([b_env_vars=False], [b_user=False]).  So a substituted text that
    contains a later placeholder is substituted again.  Each call returns a
    new object of the class of the receiver. *)
Theorem expand_substitutes_in_order
    (osp : OSPath) (self : RGInstance) (s : string) (b_env_vars b_user : bool)
    (kwargs1 kwargs2 : list (string * string)) (g : globals)
    (Hstr : inst_value self = WValue (PStr s)) :
  ∃ obj1 obj2 obj,
    expand osp self b_env_vars b_user kwargs1 g = (Ok obj1, bump_id g) ∧
    expand osp obj1 false false kwargs2 (bump_id g) = (Ok obj2, bump_id (bump_id g)) ∧
    expand osp self b_env_vars b_user (kwargs1 ++ kwargs2) g = (Ok obj, bump_id g) ∧
    inst_value obj = inst_value obj2 ∧
    inst_class obj = inst_class self ∧ inst_class obj2 = inst_class self ∧
    inst_id obj = next_id g ∧ inst_id obj1 = next_id g ∧ inst_id obj2 = S (next_id g).
Proof.
  unfold expand, expand_string. rewrite Hstr.
  eexists _, _, _. split; [reflexivity|]. split; [reflexivity|].
  split; [reflexivity|]. simpl. rewrite expand_kwargs_app. by repeat split.
Qed.

Lemma expand_substitutes_in_order_witness :
  ∃ obj,
    expand MoreFixtures.home_env
      {| inst_id := 0; inst_class := "RGstr";
         inst_value := WValue (PStr "~/$ROOT/{name}") |}
      true true [("name", "{kind}.cfg"); ("kind", "app")] MoreFixtures.twin_globals
    = (Ok obj, bump_id MoreFixtures.twin_globals) ∧
    inst_value obj = WValue (PStr "/home/u//srv/app.cfg") ∧ inst_class obj = "RGstr".
Proof.
  destruct (expand_substitutes_in_order MoreFixtures.home_env
              {| inst_id := 0; inst_class := "RGstr";
                 inst_value := WValue (PStr "~/$ROOT/{name}") |}
              "~/$ROOT/{name}" true true [("name", "{kind}.cfg")] [("kind", "app")]
              MoreFixtures.twin_globals eq_refl)
    as (obj1 & obj2 & obj & Hfirst & Hsecond & Hboth & Hvalue & Hclass & _).
  exists obj. split; [exact Hboth|]. split; [|exact Hclass].
  rewrite Hvalue.
  vm_compute in Hfirst. injection Hfirst as <-.
  vm_compute in Hsecond. injection Hsecond as <-.
  reflexivity.
Defined.

(** A path is rebuilt from the expanded string. *)
Example expand_path :
  expand MoreFixtures.home_env
    {| inst_id := 0; inst_class := "RGPosixPath"; inst_value := WPath "~/$ROOT/{name}" |}
    true true [("name", "x.cfg")] MoreFixtures.twin_globals
  = (Ok {| inst_id := 0; inst_class := "RGPosixPath";
           inst_value := WPath "/home/u/srv/x.cfg" |},
     bump_id MoreFixtures.twin_globals).
Proof. vm_compute. reflexivity. Qed.

(** What [get] returns is a receiver of [expand]. *)
Example get_then_expand :
  match get MoreFixtures.twin_dir MoreFixtures.twin_manager "y" false
          MoreFixtures.twin_globals with
  | (Ok (obj, _), g1) =>
      fst (expand MoreFixtures.home_env (instance_of obj) true true [("name", "n")] g1)
      = Ok {| inst_id := 1; inst_class := "RGstr";
              inst_value := WValue (PStr "/home/u//srv/n") |}
  | _ => False
  end.
Proof. vm_compute. reflexivity. Qed.
